(** * The system-id telemetry forwarder of [telemetry_forwarder.py]

    A shallow embedding of [SystemIdTelemetryForwarder] and
    [MultiDroneForwarder], and the properties of the filter-and-relay loop,
    of the statistics and of the start/stop life cycle.

    Conventions of the embedding:
    - Python [int]s are [Z]; the readings of [time.time()] and the values of
      true division are rationals ([Q]), an idealisation of Python floats
      that keeps every comparison the code makes;
    - everything the code asks of the outside world (what [recv_match]
      returns, whether [sendto] raises, what [time.time()] reads, whether
      the connection can be opened) is supplied by an [Env] record, one per
      scheduled step of a forwarder thread;
    - everything the code does to the outside world (log records, datagrams,
      sleeps, thread starts and joins) is appended, in order, to a trace of
      [effect]s;
    - log records are kept structured ([log_msg]) instead of formatted;
    - a scheduled step of a forwarder thread is a whole pass through the
      body of [while self.running]: the flag is read at the head of the loop
      only, so a [stop()] that arrives during a pass is seen by the loop as
      if it had arrived right after it.  Properties of "every state" are
      properties of the states between such steps;
    - an exception that escapes [_forward_loop] ends its thread
      ([TCrashed]); nothing in the program catches or logs it. *)

From Stdlib Require Import ZArith QArith String List Lia.
From stdpp Require Import base tactics option list gmap sorting.
Import ListNotations.

Local Open Scope Z_scope.

(* ------------------------------------------------------------------ *)
(** ** Python values *)

(** Instances of (subclasses of) [Exception]: what socket and arithmetic
    operations raise. *)
Inductive exn : Type :=
| OSError (msg : string)
| ZeroDivisionError.

(** A Python number: an [int], or a [float] idealised as a rational. *)
Inductive pynum : Type :=
| PyInt (z : Z)
| PyFloat (q : Q).

Definition to_Q (x : pynum) : Q :=
  match x with
  | PyInt z => inject_Z z
  | PyFloat q => q
  end.

Definition Qltb (x y : Q) : bool := negb (Qle_bool y x).

(** [x > 0] *)
Definition py_pos (x : pynum) : bool := Qltb 0 (to_Q x).

(** [x * y] where one of the operands is a float *)
Definition py_mul (x y : pynum) : pynum := PyFloat (to_Q x * to_Q y).

(** A decoded MAVLink message, as far as the forwarder looks at it. *)
Record MAVLink_message : Type := mkMsg {
  get_srcSystem : Z;
  get_msgbuf : list Byte.byte
}.

(** [len(msg_bytes)] *)
Definition len (b : list Byte.byte) : Z := Z.of_nat (length b).

(* ------------------------------------------------------------------ *)
(** ** Effects *)

Inductive level : Type := INFO | WARNING | ERROR.

Inductive log_msg : Type :=
| MsgForwarderStarted (drone px4 bcast sysid : Z)
| MsgForwarderStopped (drone : Z)
| MsgListening (drone port : Z)
| MsgBroadcasting (drone port : Z)
| MsgFiltering (drone sysid : Z)
| MsgNoData (drone secs : Z)
| MsgForwardError (drone : Z) (e : exn)
| MsgStats (drone fwd : Z) (forward_rate : pynum)
           (filtered : Z) (filter_pct : pynum) (sysids : list Z)
| MsgStartingAll
| MsgStartedAll (n : nat)
| MsgStoppingAll
| MsgAllStopped.

(** [who] of a sleep is the forwarder thread that sleeps, [None] for the
    caller's (main) thread. *)
Inductive effect : Type :=
| ELog (lvl : level) (m : log_msg)
| ESendto (data : list Byte.byte) (port : Z)
| ESleep (who : option nat) (secs : Q)
| EThreadStart (tid : nat)
| EJoin (tid : nat) (timeout : Q)
| ESockClose (tid : nat).

(* ------------------------------------------------------------------ *)
(** ** The forwarder object *)

Record Forwarder : Type := mkForwarder {
  px4_port : Z;
  broadcast_port : Z;
  expected_sysid : Z;
  drone_id : Z;
  running : bool;
  thread : option nat;
  mav_conn : option Z;
  packets_received : Z;
  packets_forwarded : Z;
  packets_filtered : Z;
  bytes_forwarded : Z;
  start_time : option Q;
  system_ids_seen : gset Z
}.

(** [SystemIdTelemetryForwarder.__init__] *)
Definition init (px4 bcast sysid drone : Z) : Forwarder :=
  {| px4_port := px4; broadcast_port := bcast; expected_sysid := sysid;
     drone_id := drone; running := false; thread := None; mav_conn := None;
     packets_received := 0; packets_forwarded := 0; packets_filtered := 0;
     bytes_forwarded := 0; start_time := None; system_ids_seen := ∅ |}.

(** Field assignments. *)
Definition set_running (b : bool) (f : Forwarder) : Forwarder :=
  mkForwarder (px4_port f) (broadcast_port f) (expected_sysid f) (drone_id f)
    b (thread f) (mav_conn f) (packets_received f) (packets_forwarded f)
    (packets_filtered f) (bytes_forwarded f) (start_time f) (system_ids_seen f).

Definition set_thread (t : option nat) (f : Forwarder) : Forwarder :=
  mkForwarder (px4_port f) (broadcast_port f) (expected_sysid f) (drone_id f)
    (running f) t (mav_conn f) (packets_received f) (packets_forwarded f)
    (packets_filtered f) (bytes_forwarded f) (start_time f) (system_ids_seen f).

Definition set_mav_conn (c : option Z) (f : Forwarder) : Forwarder :=
  mkForwarder (px4_port f) (broadcast_port f) (expected_sysid f) (drone_id f)
    (running f) (thread f) c (packets_received f) (packets_forwarded f)
    (packets_filtered f) (bytes_forwarded f) (start_time f) (system_ids_seen f).

Definition set_packets_received (n : Z) (f : Forwarder) : Forwarder :=
  mkForwarder (px4_port f) (broadcast_port f) (expected_sysid f) (drone_id f)
    (running f) (thread f) (mav_conn f) n (packets_forwarded f)
    (packets_filtered f) (bytes_forwarded f) (start_time f) (system_ids_seen f).

Definition set_packets_forwarded (n : Z) (f : Forwarder) : Forwarder :=
  mkForwarder (px4_port f) (broadcast_port f) (expected_sysid f) (drone_id f)
    (running f) (thread f) (mav_conn f) (packets_received f) n
    (packets_filtered f) (bytes_forwarded f) (start_time f) (system_ids_seen f).

Definition set_packets_filtered (n : Z) (f : Forwarder) : Forwarder :=
  mkForwarder (px4_port f) (broadcast_port f) (expected_sysid f) (drone_id f)
    (running f) (thread f) (mav_conn f) (packets_received f)
    (packets_forwarded f) n (bytes_forwarded f) (start_time f)
    (system_ids_seen f).

Definition set_bytes_forwarded (n : Z) (f : Forwarder) : Forwarder :=
  mkForwarder (px4_port f) (broadcast_port f) (expected_sysid f) (drone_id f)
    (running f) (thread f) (mav_conn f) (packets_received f)
    (packets_forwarded f) (packets_filtered f) n (start_time f)
    (system_ids_seen f).

Definition set_start_time (t : option Q) (f : Forwarder) : Forwarder :=
  mkForwarder (px4_port f) (broadcast_port f) (expected_sysid f) (drone_id f)
    (running f) (thread f) (mav_conn f) (packets_received f)
    (packets_forwarded f) (packets_filtered f) (bytes_forwarded f) t
    (system_ids_seen f).

Definition set_system_ids_seen (s : gset Z) (f : Forwarder) : Forwarder :=
  mkForwarder (px4_port f) (broadcast_port f) (expected_sysid f) (drone_id f)
    (running f) (thread f) (mav_conn f) (packets_received f)
    (packets_forwarded f) (packets_filtered f) (bytes_forwarded f)
    (start_time f) s.

(* ------------------------------------------------------------------ *)
(** ** The outside world of one thread step *)

Inductive recv_outcome : Type :=
| RecvRaise (e : exn)            (* [recv_match] raised *)
| RecvNone                       (* timed out: returned [None] *)
| RecvMsg (m : MAVLink_message).

Record Env : Type := mkEnv {
  (** [mavutil.mavlink_connection(...)]: [Some e] when it raises *)
  connection_result : option exn;
  (** [self.mav_conn.recv_match(blocking=True, timeout=1.0)] *)
  recv_result : recv_outcome;
  (** [send_sock.sendto(...)]: [Some e] when it raises *)
  sendto_result : option exn;
  (** [time.time()] in [_forward_loop] (lines 85 and 125) *)
  time_loop : Q;
  (** [time.time()] in [_log_stats] (line 138) *)
  time_stats : Q
}.

(* ------------------------------------------------------------------ *)
(** ** A state-and-exception monad for the loop body

    An exception keeps the state reached when it was raised, as in Python.
    The state of the loop is the forwarder object, the two local variables
    of [_forward_loop] and the trace. *)

Record loop_state : Type := mkLoop {
  self : Forwarder;
  consecutive_timeouts : Z;
  last_stats_time : Q;
  trace : list effect
}.

Definition M (S A : Type) : Type := S -> (exn + A) * S.

Definition ret {S A} (a : A) : M S A := fun s => (inr a, s).

Definition raise {S A} (e : exn) : M S A := fun s => (inl e, s).

Definition bind {S A B} (c : M S A) (k : A -> M S B) : M S B :=
  fun s =>
    match c s with
    | (inl e, s') => (inl e, s')
    | (inr a, s') => k a s'
    end.

Declare Scope py_scope.
Delimit Scope py_scope with py.
Notation "x <- c1 ;; c2" := (bind c1 (fun x => c2))
  (at level 100, c1 at next level, right associativity) : py_scope.
Notation "c1 ;; c2" := (bind c1 (fun _ => c2))
  (at level 100, right associativity) : py_scope.

Definition gets {S A} (p : S -> A) : M S A := fun s => (inr (p s), s).

Definition modify {S} (g : S -> S) : M S unit := fun s => (inr tt, g s).

(** [try: c except Exception as e: h e] *)
Definition try_except {S} (c : M S unit) (h : exn -> M S unit) : M S unit :=
  fun s =>
    match c s with
    | (inl e, s') => h e s'
    | (inr tt, s') => (inr tt, s')
    end.

(** [x / y]: true division, raising on a zero divisor. *)
Definition truediv {S} (x y : pynum) : M S pynum :=
  if Qeq_bool (to_Q y) 0 then raise ZeroDivisionError
  else ret (PyFloat (to_Q x / to_Q y)).

Definition upd_self (g : Forwarder -> Forwarder) : M loop_state unit :=
  modify (fun s =>
    mkLoop (g (self s)) (consecutive_timeouts s) (last_stats_time s) (trace s)).

Definition set_consecutive_timeouts (c : Z) : M loop_state unit :=
  modify (fun s => mkLoop (self s) c (last_stats_time s) (trace s)).

Definition set_last_stats_time (t : Q) : M loop_state unit :=
  modify (fun s => mkLoop (self s) (consecutive_timeouts s) t (trace s)).

Definition emit (e : effect) : M loop_state unit :=
  modify (fun s =>
    mkLoop (self s) (consecutive_timeouts s) (last_stats_time s)
           (trace s ++ [e])).

Local Open Scope py_scope.

(* ------------------------------------------------------------------ *)
(** ** Statistics: [_log_stats] and [get_stats] *)

(** [time.time() - self.start_time if self.start_time else 0]: a start time
    that is [None] or [0.0] is falsy. *)
Definition duration (now : Q) (f : Forwarder) : pynum :=
  match start_time f with
  | Some t => if Qeq_bool t 0 then PyInt 0 else PyFloat (now - t)
  | None => PyInt 0
  end.

(** [(self.packets_filtered / self.packets_received * 100)
     if self.packets_received > 0 else 0] *)
Definition filter_percentage {S} (f : Forwarder) : M S pynum :=
  if 0 <? packets_received f then
    q <- truediv (PyInt (packets_filtered f)) (PyInt (packets_received f)) ;;
    ret (py_mul q (PyInt 100))
  else ret (PyInt 0).

(** [self.packets_forwarded / duration if duration > 0 else 0] *)
Definition forward_rate_hz {S} (d : pynum) (f : Forwarder) : M S pynum :=
  if py_pos d then truediv (PyInt (packets_forwarded f)) d
  else ret (PyInt 0).

(** [(self.bytes_forwarded * 8 / 1024) / duration if duration > 0 else 0] *)
Definition bandwidth_kbps {S} (d : pynum) (f : Forwarder) : M S pynum :=
  if py_pos d then
    k <- truediv (PyInt (bytes_forwarded f * 8)) (PyInt 1024) ;;
    truediv k d
  else ret (PyInt 0).

(** [sorted(self.system_ids_seen)] *)
Definition sorted_ids (s : gset Z) : list Z := merge_sort Z.le (elements s).

(** The dictionary returned by [get_stats]. *)
Record Stats : Type := mkStats {
  stats_drone_id : Z;
  stats_expected_sysid : Z;
  stats_packets_received : Z;
  stats_packets_forwarded : Z;
  stats_packets_filtered : Z;
  stats_filter_percentage : pynum;
  stats_bytes_forwarded : Z;
  stats_forward_rate_hz : pynum;
  stats_bandwidth_kbps : pynum;
  stats_system_ids_seen : list Z
}.

(** [get_stats], a method of the forwarder object; [now] is what its
    [time.time()] reads. *)
Definition get_stats (now : Q) : M Forwarder Stats :=
  f <- gets id ;;
  let d := duration now f in
  pct <- filter_percentage f ;;
  rate <- forward_rate_hz d f ;;
  bw <- bandwidth_kbps d f ;;
  ret {| stats_drone_id := drone_id f;
         stats_expected_sysid := expected_sysid f;
         stats_packets_received := packets_received f;
         stats_packets_forwarded := packets_forwarded f;
         stats_packets_filtered := packets_filtered f;
         stats_filter_percentage := pct;
         stats_bytes_forwarded := bytes_forwarded f;
         stats_forward_rate_hz := rate;
         stats_bandwidth_kbps := bw;
         stats_system_ids_seen := sorted_ids (system_ids_seen f) |}.

(** [_log_stats] *)
Definition _log_stats (env : Env) : M loop_state unit :=
  f <- gets self ;;
  let d := duration (time_stats env) f in
  if py_pos d then
    forward_rate <- truediv (PyInt (packets_forwarded f)) d ;;
    filter_pct <- filter_percentage f ;;
    emit (ELog INFO
            (MsgStats (drone_id f) (packets_forwarded f) forward_rate
                      (packets_filtered f) filter_pct
                      (sorted_ids (system_ids_seen f))))
  else ret tt.

(* ------------------------------------------------------------------ *)
(** ** The filter-and-relay loop *)

(** [self.mav_conn.recv_match(blocking=True, timeout=1.0)] *)
Definition recv_match {S} (env : Env) : M S (option MAVLink_message) :=
  match recv_result env with
  | RecvRaise e => raise e
  | RecvNone => ret None
  | RecvMsg m => ret (Some m)
  end.

(** [send_sock.sendto(msg_bytes, ('127.0.0.1', port))]: the datagram is on
    the wire only when the call does not raise. *)
Definition sendto (env : Env) (data : list Byte.byte) (port : Z)
  : M loop_state unit :=
  match sendto_result env with
  | Some e => raise e
  | None => emit (ESendto data port)
  end.

(** The body of the [try] block, lines 89-128.  The [continue] of the
    timeout branch ends the body. *)
Definition loop_body (env : Env) : M loop_state unit :=
  msg <- recv_match env ;;
  match msg with
  | None =>
      c <- gets consecutive_timeouts ;;
      set_consecutive_timeouts (c + 1) ;;
      c <- gets consecutive_timeouts ;;
      if 10 <=? c then
        f <- gets self ;;
        emit (ELog WARNING (MsgNoData (drone_id f) c)) ;;
        set_consecutive_timeouts 0
      else ret tt
  | Some msg =>
      set_consecutive_timeouts 0 ;;
      upd_self (fun f => set_packets_received (packets_received f + 1) f) ;;
      let msg_sysid := get_srcSystem msg in
      upd_self (fun f =>
        set_system_ids_seen ({[msg_sysid]} ∪ system_ids_seen f) f) ;;
      f <- gets self ;;
      (if msg_sysid =? expected_sysid f then
         let msg_bytes := get_msgbuf msg in
         sendto env msg_bytes (broadcast_port f) ;;
         upd_self (fun f =>
           set_packets_forwarded (packets_forwarded f + 1) f) ;;
         upd_self (fun f =>
           set_bytes_forwarded (bytes_forwarded f + len msg_bytes) f)
       else
         upd_self (fun f =>
           set_packets_filtered (packets_filtered f + 1) f)) ;;
      let current_time := time_loop env in
      last <- gets last_stats_time ;;
      if Qle_bool 10 (current_time - last) then
        _log_stats env ;;
        set_last_stats_time current_time
      else ret tt
  end.

(** The [except Exception as e] handler, lines 130-132. *)
Definition handler (tid : nat) (e : exn) : M loop_state unit :=
  f <- gets self ;;
  emit (ELog ERROR (MsgForwardError (drone_id f) e)) ;;
  emit (ESleep (Some tid) (1 # 10)).

(** One pass through the body of [while self.running], run by thread
    [tid]. *)
Definition iteration_m (tid : nat) (env : Env) : M loop_state unit :=
  try_except (loop_body env) (handler tid).

Definition iteration (tid : nat) (env : Env) (s : loop_state) : loop_state :=
  snd (iteration_m tid env s).

(** Whether an exception escaped the [try] statement of an iteration. *)
Definition iteration_escapes (tid : nat) (env : Env) (s : loop_state)
  : option exn :=
  match fst (iteration_m tid env s) with
  | inl e => Some e
  | inr _ => None
  end.

(** [while self.running: ...] on the schedule [envs]: one environment per
    iteration.  The flag is read at the head of each iteration; the loop
    ends when it reads [False] (or, here, when the schedule does). *)
Fixpoint forward_loop (tid : nat) (envs : list Env) (s : loop_state)
  : loop_state :=
  match envs with
  | [] => s
  | env :: envs' =>
      if running (self s) then forward_loop tid envs' (iteration tid env s)
      else s
  end.

(* ------------------------------------------------------------------ *)
(** ** Threads, [start] and [stop] *)

(** Where a forwarder thread is in [_forward_loop]. *)
Inductive thread_state : Type :=
| TCreated                       (* started, line 74 not yet run *)
| TLooping (consecutive_timeouts : Z) (last_stats_time : Q)
| TExited                        (* left the loop and closed the socket *)
| TCrashed (e : exn).            (* an exception escaped [_forward_loop] *)

(** The forwarder objects of a [MultiDroneForwarder] (its [forwarders]
    list), the threads started so far, each with the index of the forwarder
    whose loop it runs, and the trace.  A thread's id is its position. *)
Record World : Type := mkWorld {
  forwarders : list Forwarder;
  threads : list (nat * thread_state);
  wtrace : list effect
}.

Definition emit_w (es : list effect) (w : World) : World :=
  mkWorld (forwarders w) (threads w) (wtrace w ++ es).

(** [forwarder.start()] for the forwarder at index [i]; [now] is what
    [time.time()] reads. *)
Definition start (i : nat) (now : Q) (w : World) : World :=
  match forwarders w !! i with
  | None => w
  | Some f =>
      if running f then w
      else
        let tid := length (threads w) in
        let f' := set_thread (Some tid)
                    (set_start_time (Some now) (set_running true f)) in
        mkWorld (<[i := f']> (forwarders w))
                (threads w ++ [(i, TCreated)])
                (wtrace w ++
                   [EThreadStart tid;
                    ELog INFO (MsgForwarderStarted (drone_id f) (px4_port f)
                                 (broadcast_port f) (expected_sysid f))])
  end.

(** [forwarder.stop()].  [join(timeout=2)] waits but changes nothing: the
    thread may or may not have left its loop when [stop] returns. *)
Definition stop (i : nat) (w : World) : World :=
  match forwarders w !! i with
  | None => w
  | Some f =>
      mkWorld (<[i := set_running false f]> (forwarders w))
              (threads w)
              (wtrace w ++
                 match thread f with
                 | Some tid => [EJoin tid 2%Q]
                 | None => []
                 end ++ [ELog INFO (MsgForwarderStopped (drone_id f))])
  end.

(** Lines 74-85 of [_forward_loop], outside the [try]: an exception of
    [mavlink_connection] escapes and ends the thread. *)
Definition forward_loop_prologue (env : Env) (f : Forwarder)
  : exn + (Forwarder * thread_state * list effect) :=
  match connection_result env with
  | Some e => inl e
  | None =>
      inr (set_mav_conn (Some (px4_port f)) f,
           TLooping 0 (time_loop env),
           [ELog INFO (MsgListening (drone_id f) (px4_port f));
            ELog INFO (MsgBroadcasting (drone_id f) (broadcast_port f));
            ELog INFO (MsgFiltering (drone_id f) (expected_sysid f))])
  end.

Definition set_thread_state (tid : nat) (ts : thread_state) (w : World)
  : list (nat * thread_state) :=
  alter (fun p => (fst p, ts)) tid (threads w).

(** One scheduled step of thread [tid]: the prologue, or the test of
    [while self.running] followed by one iteration or by the exit. *)
Definition thread_step (tid : nat) (env : Env) (w : World) : World :=
  match threads w !! tid with
  | Some (i, ts) =>
      match forwarders w !! i with
      | None => w
      | Some f =>
          match ts with
          | TCreated =>
              match forward_loop_prologue env f with
              | inl e =>
                  mkWorld (forwarders w) (set_thread_state tid (TCrashed e) w)
                          (wtrace w)
              | inr (f', ts', es) =>
                  mkWorld (<[i := f']> (forwarders w))
                          (set_thread_state tid ts' w) (wtrace w ++ es)
              end
          | TLooping c l =>
              if running f then
                match iteration_m tid env (mkLoop f c l (wtrace w)) with
                | (inl e, s) =>
                    mkWorld (<[i := self s]> (forwarders w))
                            (set_thread_state tid (TCrashed e) w) (trace s)
                | (inr _, s) =>
                    mkWorld (<[i := self s]> (forwarders w))
                            (set_thread_state tid
                               (TLooping (consecutive_timeouts s)
                                         (last_stats_time s)) w)
                            (trace s)
                end
              else
                mkWorld (forwarders w) (set_thread_state tid TExited w)
                        (wtrace w ++ [ESockClose tid])
          | TExited | TCrashed _ => w
          end
      end
  | None => w
  end.

(* ------------------------------------------------------------------ *)
(** ** [MultiDroneForwarder] *)

(** One entry of the configuration list. *)
Record Config : Type := mkConfig {
  cfg_drone_id : Z;
  cfg_px4_port : Z;
  cfg_broadcast_port : Z;
  cfg_expected_sysid : Z
}.

(** [MultiDroneForwarder.__init__] *)
Definition manager_init (config : list Config) : World :=
  mkWorld
    (map (fun cfg => init (cfg_px4_port cfg) (cfg_broadcast_port cfg)
                          (cfg_expected_sysid cfg) (cfg_drone_id cfg)) config)
    [] [].

(** What can happen, one after the other: calls made by the caller's thread
    and scheduled steps of forwarder threads. *)
Inductive event : Type :=
| EvStart (i : nat) (now : Q)
| EvStop (i : nat)
| EvThread (tid : nat) (env : Env)
| EvSleep (secs : Q)
| EvLog (lvl : level) (m : log_msg).

Definition step (ev : event) (w : World) : World :=
  match ev with
  | EvStart i now => start i now w
  | EvStop i => stop i w
  | EvThread tid env => thread_step tid env w
  | EvSleep secs => emit_w [ESleep None secs] w
  | EvLog lvl m => emit_w [ELog lvl m] w
  end.

Definition run (evs : list event) (w : World) : World :=
  foldl (fun w ev => step ev w) w evs.

(** The forwarder threads scheduled while the caller sleeps. *)
Definition run_threads (sched : list (nat * Env)) (w : World) : World :=
  foldl (fun w p => thread_step (fst p) (snd p) w) w sched.

(** [time.sleep(secs)] on the caller's thread; [during] is what the
    forwarder threads do meanwhile. *)
Definition sleep (secs : Q) (during : list (nat * Env)) (w : World) : World :=
  run_threads during (emit_w [ESleep None secs] w).

(** [start_all].  For the forwarder at index [i], [fst (sched i)] is what
    [time.time()] reads in its [start()] and [snd (sched i)] what the
    threads do during the [time.sleep(1)] that follows. *)
Definition start_all (sched : nat -> Q * list (nat * Env)) (w : World)
  : World :=
  let w1 := emit_w [ELog INFO MsgStartingAll] w in
  let w2 :=
    foldl (fun w i => sleep 1 (snd (sched i)) (start i (fst (sched i)) w))
          w1 (seq 0 (length (forwarders w))) in
  emit_w [ELog INFO (MsgStartedAll (length (forwarders w2)))] w2.

(** [forwarder.stop()] as [stop_all] goes through it: the flag is cleared,
    the caller waits in [join(timeout=2)] while the forwarder threads take
    the steps [during], and then the stop is logged.  With no step during
    the wait this is [stop]. *)
Definition stop_joining (during : list (nat * Env)) (i : nat) (w : World)
  : World :=
  match forwarders w !! i with
  | None => run_threads during w
  | Some f =>
      let w1 :=
        mkWorld (<[i := set_running false f]> (forwarders w)) (threads w)
                (wtrace w ++
                   match thread f with
                   | Some tid => [EJoin tid 2%Q]
                   | None => []
                   end) in
      emit_w [ELog INFO (MsgForwarderStopped (drone_id f))]
             (run_threads during w1)
  end.

(** [stop_all]; [joins i] is what the forwarder threads do while the caller
    is in the [stop()] of the forwarder at index [i]. *)
Definition stop_all (joins : nat -> list (nat * Env)) (w : World) : World :=
  let w1 := emit_w [ELog INFO MsgStoppingAll] w in
  let w2 := foldl (fun w i => stop_joining (joins i) i w) w1
                  (seq 0 (length (forwarders w))) in
  emit_w [ELog INFO MsgAllStopped] w2.

(** The configuration of [main]. *)
Definition main_config : list Config :=
  [ mkConfig 1 14540 14550 1; mkConfig 2 14541 14551 2;
    mkConfig 3 14542 14552 3 ].

(* ------------------------------------------------------------------ *)
(** ** [print_stats] *)

(** One block of the report: the dictionary of [get_stats] and the value of
    [stats['bytes_forwarded']/1024].  The formatting of the numbers is not
    modelled. *)
Record StatsRow : Type := mkRow {
  row_stats : Stats;
  row_data_kb : pynum
}.

(** The forwarder objects of the manager and what has been printed. *)
Definition Console : Type := list Forwarder * list StatsRow.

(** A method call on the forwarder object [f] held at position [i]: what
    the call does to the object is stored back. *)
Definition call {A} (i : nat) (f : Forwarder) (c : M Forwarder A)
  : M Console A :=
  fun con =>
    match c f with
    | (r, f') => (r, (<[i := f']> (fst con), snd con))
    end.

(** [print(...)] of one block. *)
Definition print_row (r : StatsRow) : M Console unit :=
  modify (fun con => (fst con, snd con ++ [r])).

(** [for x in l: body], with the position of [x]. *)
Fixpoint for_each {St A} (body : nat -> A -> M St unit) (i : nat)
    (l : list A) : M St unit :=
  match l with
  | [] => ret tt
  | a :: l' => body i a ;; for_each body (S i) l'
  end.

(** The body of the loop of [print_stats] for the forwarder [f] at
    position [i]; [now] is what [time.time()] reads in its [get_stats]. *)
Definition print_block (now : Q) (i : nat) (f : Forwarder) : M Console unit :=
  stats <- call i f (get_stats now) ;;
  kb <- truediv (PyInt (stats_bytes_forwarded stats)) (PyInt 1024) ;;
  print_row (mkRow stats kb).

(** [print_stats]; [now i] is what [time.time()] reads in the [get_stats]
    of the forwarder at position [i]. *)
Definition print_stats (now : nat -> Q) : M Console unit :=
  fs <- gets fst ;;
  for_each (fun i f => print_block (now i) i f) 0%nat fs.

(* ------------------------------------------------------------------ *)
(** * The vocabulary of the properties *)

(** ** Closed forms

    What the monadic code computes, written as plain functions; the
    lemmas of the next part prove that the code computes them. *)

(** The value of the [filter_percentage] expression. *)
Definition filter_pct_value (f : Forwarder) : pynum :=
  if 0 <? packets_received f then
    py_mul (PyFloat (inject_Z (packets_filtered f) /
                     inject_Z (packets_received f))) (PyInt 100)
  else PyInt 0.

(** The lines that [_log_stats] writes. *)
Definition stats_lines (env : Env) (f : Forwarder) : list effect :=
  let d := duration (time_stats env) f in
  if py_pos d then
    [ELog INFO
       (MsgStats (drone_id f) (packets_forwarded f)
          (PyFloat (inject_Z (packets_forwarded f) / to_Q d))
          (packets_filtered f) (filter_pct_value f)
          (sorted_ids (system_ids_seen f)))]
  else [].

(** Lines 125-128: the periodic statistics. *)
Definition stats_check (env : Env) (s : loop_state) : loop_state :=
  if Qle_bool 10 (time_loop env - last_stats_time s) then
    mkLoop (self s) (consecutive_timeouts s) (time_loop env)
           (trace s ++ stats_lines env (self s))
  else s.

(** Lines 102-107: a frame is counted as received and its sender noted. *)
Definition count_received (m : MAVLink_message) (f : Forwarder) : Forwarder :=
  set_system_ids_seen ({[get_srcSystem m]} ∪ system_ids_seen f)
    (set_packets_received (packets_received f + 1) f).

(** Lines 118-119. *)
Definition count_forwarded (m : MAVLink_message) (f : Forwarder) : Forwarder :=
  set_bytes_forwarded (bytes_forwarded f + len (get_msgbuf m))
    (set_packets_forwarded (packets_forwarded f + 1) f).

(** Line 122. *)
Definition count_filtered (f : Forwarder) : Forwarder :=
  set_packets_filtered (packets_filtered f + 1) f.

(** The handler's two effects. *)
Definition error_effects (tid : nat) (f : Forwarder) (e : exn) : list effect :=
  [ELog ERROR (MsgForwardError (drone_id f) e); ESleep (Some tid) (1 # 10)].

(** The five ways through an iteration. *)
Inductive iter_case (tid : nat) (env : Env) (s : loop_state)
  : loop_state -> Prop :=
| IterTimeout :
    recv_result env = RecvNone ->
    iter_case tid env s
      (if 10 <=? consecutive_timeouts s + 1
       then mkLoop (self s) 0 (last_stats_time s)
              (trace s ++
               [ELog WARNING (MsgNoData (drone_id (self s))
                                (consecutive_timeouts s + 1))])
       else mkLoop (self s) (consecutive_timeouts s + 1)
              (last_stats_time s) (trace s))
| IterRecvRaise e :
    recv_result env = RecvRaise e ->
    iter_case tid env s
      (mkLoop (self s) (consecutive_timeouts s) (last_stats_time s)
              (trace s ++ error_effects tid (self s) e))
| IterFiltered m :
    recv_result env = RecvMsg m ->
    get_srcSystem m <> expected_sysid (self s) ->
    iter_case tid env s
      (stats_check env
         (mkLoop (count_filtered (count_received m (self s))) 0
                 (last_stats_time s) (trace s)))
| IterForwarded m :
    recv_result env = RecvMsg m ->
    get_srcSystem m = expected_sysid (self s) ->
    sendto_result env = None ->
    iter_case tid env s
      (stats_check env
         (mkLoop (count_forwarded m (count_received m (self s))) 0
                 (last_stats_time s)
                 (trace s ++
                  [ESendto (get_msgbuf m) (broadcast_port (self s))])))
| IterSendRaise m e :
    recv_result env = RecvMsg m ->
    get_srcSystem m = expected_sysid (self s) ->
    sendto_result env = Some e ->
    iter_case tid env s
      (mkLoop (count_received m (self s)) 0 (last_stats_time s)
              (trace s ++ error_effects tid (count_received m (self s)) e)).

(** ** Schedules and traces *)

(** The frames that [recv_match] hands to the loop, in arrival order. *)
Definition frames (envs : list Env) : list MAVLink_message :=
  flat_map (fun env => match recv_result env with
                       | RecvMsg m => [m]
                       | _ => []
                       end) envs.

(** The datagrams put on the wire, in order, with their destination port. *)
Definition sent (tr : list effect) : list (list Byte.byte * Z) :=
  flat_map (fun ef => match ef with
                      | ESendto data port => [(data, port)]
                      | _ => []
                      end) tr.

Definition matching (sysid : Z) (m : MAVLink_message) : bool :=
  get_srcSystem m =? sysid.

Definition non_matching (sysid : Z) (m : MAVLink_message) : bool :=
  negb (matching sysid m).

(** The send of a frame from system [sysid] does not raise.  Frames from
    other systems are not sent, and a receive that times out or raises
    brings no frame. *)
Definition send_succeeds (sysid : Z) (env : Env) : bool :=
  match recv_result env with
  | RecvMsg m =>
      if matching sysid m
      then match sendto_result env with None => true | Some _ => false end
      else true
  | _ => true
  end.

Definition total_len (ms : list MAVLink_message) : Z :=
  fold_right (fun m acc => len (get_msgbuf m) + acc) 0 ms.

Definition is_stats_line (ef : effect) : bool :=
  match ef with
  | ELog INFO (MsgStats _ _ _ _ _ _) => true
  | _ => false
  end.

(** How many statistics lines a trace holds. *)
Definition stats_logged (tr : list effect) : nat :=
  length (List.filter is_stats_line tr).

(** The iteration receives a frame and gets to line 125: a frame from
    another system, or one from the expected system whose send does not
    raise. *)
Definition reaches_stats_check (env : Env) (s : loop_state) : bool :=
  match recv_result env with
  | RecvMsg m =>
      if matching (expected_sysid (self s)) m
      then match sendto_result env with None => true | Some _ => false end
      else true
  | _ => false
  end.

(** ** Events and forwarder objects *)

(** What an event can do to a single forwarder object. *)
Inductive obj_step : event -> Forwarder -> Forwarder -> Prop :=
| ObjSame ev f : obj_step ev f f
| ObjStart i now tid f :
    running f = false ->
    obj_step (EvStart i now) f
      (set_thread (Some tid) (set_start_time (Some now) (set_running true f)))
| ObjStop i f : obj_step (EvStop i) f (set_running false f)
| ObjConnect tid env f :
    obj_step (EvThread tid env) f (set_mav_conn (Some (px4_port f)) f)
| ObjIter tid env f c l tr :
    running f = true ->
    obj_step (EvThread tid env) f
      (self (iteration tid env (mkLoop f c l tr))).

(** The four counters and the set of senders only grow. *)
Definition counters_le (f f' : Forwarder) : Prop :=
  packets_received f <= packets_received f' /\
  packets_forwarded f <= packets_forwarded f' /\
  packets_filtered f <= packets_filtered f' /\
  bytes_forwarded f <= bytes_forwarded f' /\
  system_ids_seen f ⊆ system_ids_seen f'.

(** No scheduled thread step has a raising [sendto]. *)
Definition no_failed_send (ev : event) : bool :=
  match ev with
  | EvThread _ env =>
      match sendto_result env with None => true | Some _ => false end
  | _ => true
  end.

(** The effects of the caller's thread, as opposed to those of the
    forwarder threads. *)
Definition by_caller (ef : effect) : bool :=
  match ef with
  | EThreadStart _ | EJoin _ _ | ESleep None _ => true
  | ELog _ (MsgForwarderStarted _ _ _ _) | ELog _ (MsgForwarderStopped _)
  | ELog _ MsgStartingAll | ELog _ (MsgStartedAll _)
  | ELog _ MsgStoppingAll | ELog _ MsgAllStopped => true
  | _ => false
  end.

Definition caller_effects (tr : list effect) : list effect :=
  List.filter by_caller tr.

(** What [start_all] does for the forwarder at index [j], built from
    configuration entry [c]. *)
Definition start_effects (j : nat) (c : Config) : list effect :=
  [EThreadStart j;
   ELog INFO (MsgForwarderStarted (cfg_drone_id c) (cfg_px4_port c)
                (cfg_broadcast_port c) (cfg_expected_sysid c));
   ESleep None 1%Q].

(** The fields that only [__init__], [start] and [stop] write. *)
Definition same_lifecycle (f f' : Forwarder) : Prop :=
  running f' = running f /\ thread f' = thread f /\
  start_time f' = start_time f /\ drone_id f' = drone_id f /\
  px4_port f' = px4_port f /\ broadcast_port f' = broadcast_port f /\
  expected_sysid f' = expected_sysid f.

Definition built_from (c : Config) (f : Forwarder) : Prop :=
  drone_id f = cfg_drone_id c /\ px4_port f = cfg_px4_port c /\
  broadcast_port f = cfg_broadcast_port c /\
  expected_sysid f = cfg_expected_sysid c.

(** The state of the world when the first [k] forwarders have been
    started. *)
Definition started_upto (cfg : list Config)
    (sched : nat -> Q * list (nat * Env)) (k : nat) (w : World) : Prop :=
  length (forwarders w) = length cfg /\
  length (threads w) = k /\
  (forall j c, cfg !! j = Some c ->
     exists f, forwarders w !! j = Some f /\ built_from c f /\
       if (j <? k)%nat
       then running f = true /\ thread f = Some j /\
            start_time f = Some (fst (sched j))
       else running f = false) /\
  (forall j, (j < k)%nat -> exists ts, threads w !! j = Some (j, ts)) /\
  caller_effects (wtrace w) =
    ELog INFO MsgStartingAll :: concat (imap start_effects (take k cfg)).

(** ** Concrete inputs *)

Definition heartbeat (sysid : Z) : MAVLink_message :=
  mkMsg sysid [Byte.xfd; Byte.x09; Byte.x00; Byte.x00].

Definition attitude (sysid : Z) : MAVLink_message :=
  mkMsg sysid [Byte.xfd; Byte.x1c; Byte.x00; Byte.x00; Byte.x01; Byte.x1e].

Definition env_connect (t : Q) : Env := mkEnv None RecvNone None t t.

Definition env_connect_fails : Env :=
  mkEnv (Some (OSError "Address already in use")) RecvNone None 0 0.

Definition env_timeout (t : Q) : Env := mkEnv None RecvNone None t t.

Definition env_recv_fails (t : Q) : Env :=
  mkEnv None (RecvRaise (OSError "Connection refused")) None t t.

Definition env_frame (m : MAVLink_message) (t : Q) : Env :=
  mkEnv None (RecvMsg m) None t t.

Definition env_send_fails (m : MAVLink_message) (t : Q) : Env :=
  mkEnv None (RecvMsg m) (Some (OSError "Network is unreachable")) t t.

(** Forwarder 2 of [main], started at time 100, at the head of its loop. *)
Definition drone2_looping : loop_state :=
  mkLoop (set_mav_conn (Some 14541)
            (set_thread (Some 0%nat)
               (set_start_time (Some 100%Q)
                  (set_running true (init 14541 14551 2 2)))))
         0 100 [].

(** Scenario A: 100 frames, 60 from system 2 and 40 from system 0,
    interleaved, with a timeout and a failed receive now and then. *)
Definition scenario_A : list Env :=
  flat_map (fun k : nat =>
              let t := (100 + inject_Z (Z.of_nat k))%Q in
              [env_frame (heartbeat 2) t; env_frame (heartbeat 0) t;
               env_timeout t; env_frame (attitude 2) t;
               env_frame (attitude 0) t; env_recv_fails t;
               env_frame (attitude 2) t])
           (seq 0 20).

Definition counters (f : Forwarder) : Z * Z * Z * Z :=
  (packets_received f, packets_forwarded f, packets_filtered f,
   bytes_forwarded f).

(** A log record that reports a failure: anything above INFO, or an error
    message at any level. *)
Definition is_failure_record (ef : effect) : bool :=
  match ef with
  | ELog WARNING _ | ELog ERROR _ => true
  | ELog INFO (MsgForwardError _ _) => true
  | _ => false
  end.

Definition drone1_started : Forwarder :=
  set_thread (Some 0%nat)
    (set_start_time (Some 100%Q) (set_running true (init 14540 14550 1 1))).

Definition two_frames : list event :=
  [EvStart 0 100; EvThread 0 (env_connect 100);
   EvThread 0 (env_frame (heartbeat 1) 101);
   EvThread 0 (env_frame (heartbeat 3) 102)].

Definition drone1_after_two_frames : Forwarder :=
  count_filtered
    (count_received (heartbeat 3)
       (count_forwarded (heartbeat 1)
          (count_received (heartbeat 1)
             (set_mav_conn (Some 14540) drone1_started)))).

Definition twelve_timeouts : list Env :=
  map (fun k : nat => env_timeout (100 + inject_Z (Z.of_nat k))) (seq 1 12).

(** ** More vocabulary *)

(** The senders of a list of frames. *)
Definition senders (ms : list MAVLink_message) : gset Z :=
  list_to_set (map get_srcSystem ms).

(** The total length of a list of datagrams. *)
Definition datagram_bytes (ds : list (list Byte.byte * Z)) : Z :=
  fold_right (fun d acc => len (fst d) + acc) 0 ds.

(** A silence warning reports ten seconds. *)
Definition nodata_says_10 (ef : effect) : bool :=
  match ef with
  | ELog _ (MsgNoData _ n) => n =? 10
  | _ => true
  end.

(** The dictionary that [get_stats] returns. *)
Definition stats_value (now : Q) (f : Forwarder) : Stats :=
  let d := duration now f in
  {| stats_drone_id := drone_id f;
     stats_expected_sysid := expected_sysid f;
     stats_packets_received := packets_received f;
     stats_packets_forwarded := packets_forwarded f;
     stats_packets_filtered := packets_filtered f;
     stats_filter_percentage := filter_pct_value f;
     stats_bytes_forwarded := bytes_forwarded f;
     stats_forward_rate_hz :=
       if py_pos d then PyFloat (inject_Z (packets_forwarded f) / to_Q d)
       else PyInt 0;
     stats_bandwidth_kbps :=
       if py_pos d
       then PyFloat (inject_Z (bytes_forwarded f * 8) / inject_Z 1024 / to_Q d)
       else PyInt 0;
     stats_system_ids_seen := sorted_ids (system_ids_seen f) |}.

(** The block that [print_stats] prints for a forwarder. *)
Definition stats_row (now : Q) (f : Forwarder) : StatsRow :=
  mkRow (stats_value now f)
        (PyFloat (inject_Z (bytes_forwarded f) / inject_Z 1024)).

(** What the counters of a forwarder can be. *)
Definition counters_sane (f : Forwarder) : Prop :=
  0 <= packets_forwarded f /\ 0 <= packets_filtered f /\
  0 <= bytes_forwarded f /\
  packets_forwarded f + packets_filtered f <= packets_received f.

(** What [stop()] does for the forwarder object [f]. *)
Definition stop_effects (f : Forwarder) : list effect :=
  match thread f with
  | Some tid => [EJoin tid 2%Q]
  | None => []
  end ++ [ELog INFO (MsgForwarderStopped (drone_id f))].

(** Two states of a forwarder object with the same statistics. *)
Definition same_counters (f f' : Forwarder) : Prop :=
  packets_received f' = packets_received f /\
  packets_forwarded f' = packets_forwarded f /\
  packets_filtered f' = packets_filtered f /\
  bytes_forwarded f' = bytes_forwarded f /\
  system_ids_seen f' = system_ids_seen f.

(** Two worlds with the same forwarder objects and the same threads: they
    can differ in their traces only. *)
Definition same_state (w w' : World) : Prop :=
  forwarders w = forwarders w' /\ threads w = threads w'.

(** What [stop_all], and the threads that run during it, can do to a
    forwarder object: the fields written by [__init__] and [start] stay,
    the statistics only grow, and a cleared flag stays cleared. *)
Definition kept_by_stop (f f' : Forwarder) : Prop :=
  thread f' = thread f /\ start_time f' = start_time f /\
  drone_id f' = drone_id f /\ px4_port f' = px4_port f /\
  broadcast_port f' = broadcast_port f /\
  expected_sysid f' = expected_sysid f /\
  counters_le f f' /\
  (running f = false -> running f' = false).

(** A thread that is in its loop or has left it. *)
Definition in_or_out (ts : thread_state) : Prop :=
  match ts with
  | TLooping _ _ | TExited => True
  | _ => False
  end.

(** No thread is started or lost, every thread stays with its forwarder,
    and a thread that was in its loop is still in it or has left it. *)
Definition threads_kept (w w' : World) : Prop :=
  length (threads w') = length (threads w) /\
  forall t i ts,
    threads w !! t = Some (i, ts) ->
    exists ts', threads w' !! t = Some (i, ts') /\
                (in_or_out ts -> in_or_out ts').

(** No forwarder is flagged running. *)
Definition all_stopped (w : World) : Prop :=
  Forall (fun f => running f = false) (forwarders w).

(** Every forwarder built from [cfg] has been started: forwarder [j] is
    flagged running, holds thread [j] and the start time read at its
    start. *)
Definition all_started (cfg : list Config) (start_at : nat -> Q) (w : World)
  : Prop :=
  length (forwarders w) = length cfg /\
  forall j c, cfg !! j = Some c ->
    exists f, forwarders w !! j = Some f /\ built_from c f /\
      running f = true /\ thread f = Some j /\
      start_time f = Some (start_at j).

(** What [stop_all] does for the forwarder at position [j], built from the
    configuration entry [c] and started by [start_all]. *)
Definition join_effects (j : nat) (c : Config) : list effect :=
  [EJoin j 2%Q; ELog INFO (MsgForwarderStopped (cfg_drone_id c))].

(** ** More concrete inputs *)

(** Five passes of the loop of forwarder 2: a relayed frame, a frame whose
    send fails, a frame of another system, a failed receive, a relayed
    frame. *)
Definition lossy_schedule : list Env :=
  [env_frame (heartbeat 2) 101; env_send_fails (attitude 2) 102;
   env_frame (heartbeat 0) 103; env_recv_fails 104;
   env_frame (attitude 2) 105].

(** Every start reads the clock at 100 and every thread connects during
    the sleep that follows its start. *)
Definition calm_schedule : nat -> Q * list (nat * Env) :=
  fun i => (100%Q, [(i, env_connect 100)]).

(* ------------------------------------------------------------------ *)
(** * Properties *)

(** ** Arithmetic of the guards *)

Lemma py_pos_nonzero (d : pynum) : py_pos d = true -> Qeq_bool (to_Q d) 0 = false.
Proof.
  unfold py_pos, Qltb. intros H.
  destruct (Qeq_bool (to_Q d) 0) eqn:E; [| reflexivity].
  apply Qeq_bool_iff in E.
  assert (L : Qle_bool (to_Q d) 0 = true).
  { apply Qle_bool_iff. rewrite E. apply Qle_refl. }
  rewrite L in H. discriminate.
Qed.

Lemma py_pos_spec (d : pynum) : py_pos d = true <-> (0 < to_Q d)%Q.
Proof.
  unfold py_pos, Qltb. rewrite negb_true_iff.
  split.
  - intros H. apply Qnot_le_lt. intros L.
    apply Qle_bool_iff in L. congruence.
  - intros H. destruct (Qle_bool (to_Q d) 0) eqn:E; [| reflexivity].
    apply Qle_bool_iff in E. exfalso. exact (Qlt_not_le _ _ H E).
Qed.

Lemma inject_Z_nonzero (z : Z) : 0 < z -> Qeq_bool (inject_Z z) 0 = false.
Proof.
  intros H. destruct (Qeq_bool (inject_Z z) 0) eqn:E; [| reflexivity].
  apply Qeq_bool_iff in E. unfold Qeq in E. simpl in E. lia.
Qed.

(** ** What the statistics code computes *)

Lemma filter_percentage_run {S} (f : Forwarder) (s : S) :
  filter_percentage f s = (inr (filter_pct_value f), s).
Proof.
  unfold filter_percentage, filter_pct_value.
  destruct (0 <? packets_received f) eqn:E; [| reflexivity].
  apply Z.ltb_lt in E.
  unfold bind, truediv. cbn [to_Q].
  rewrite (inject_Z_nonzero _ E). reflexivity.
Qed.

Lemma log_stats_run (env : Env) (s : loop_state) :
  _log_stats env s =
  (inr tt, mkLoop (self s) (consecutive_timeouts s) (last_stats_time s)
                  (trace s ++ stats_lines env (self s))).
Proof.
  destruct s as [f c l tr]. unfold _log_stats, stats_lines. simpl.
  unfold bind at 1. unfold gets at 1. simpl.
  destruct (py_pos (duration (time_stats env) f)) eqn:E.
  - unfold bind at 1. unfold truediv at 1.
    rewrite (py_pos_nonzero _ E). unfold ret at 1.
    unfold bind. rewrite filter_percentage_run. reflexivity.
  - unfold ret. rewrite app_nil_r. reflexivity.
Qed.

(** ** One iteration, case by case *)

Ltac run_monad :=
  cbv beta iota zeta delta
    [iteration_m try_except loop_body handler sendto recv_match bind gets
     ret raise emit upd_self set_consecutive_timeouts set_last_stats_time
     modify self consecutive_timeouts last_stats_time trace].

Ltac enter_body R :=
  unfold iteration_m, try_except, loop_body, recv_match; rewrite R; run_monad.

Lemma iteration_timeout tid env f c l tr :
  recv_result env = RecvNone ->
  iteration_m tid env (mkLoop f c l tr) =
  (inr tt,
   if 10 <=? c + 1
   then mkLoop f 0 l (tr ++ [ELog WARNING (MsgNoData (drone_id f) (c + 1))])
   else mkLoop f (c + 1) l tr).
Proof.
  intros R. enter_body R.
  destruct (10 <=? c + 1); reflexivity.
Qed.

Lemma iteration_recv_raise tid env f c l tr e :
  recv_result env = RecvRaise e ->
  iteration_m tid env (mkLoop f c l tr) =
  (inr tt, mkLoop f c l (tr ++ error_effects tid f e)).
Proof.
  intros R. enter_body R.
  rewrite <- app_assoc. reflexivity.
Qed.

Lemma stats_tail tid env s :
  (let (r, s') :=
     (if Qle_bool 10 (time_loop env - last_stats_time s)
      then _log_stats env;; set_last_stats_time (time_loop env)
      else ret ()) s in
   match r with
   | inl e => handler tid e s'
   | inr () => (inr (), s')
   end) = (inr tt, stats_check env s).
Proof.
  unfold stats_check.
  destruct (Qle_bool 10 (time_loop env - last_stats_time s)).
  - unfold bind. rewrite log_stats_run. reflexivity.
  - destruct s; reflexivity.
Qed.

Lemma iteration_filtered tid env f c l tr m :
  recv_result env = RecvMsg m ->
  get_srcSystem m <> expected_sysid f ->
  iteration_m tid env (mkLoop f c l tr) =
  (inr tt,
   stats_check env (mkLoop (count_filtered (count_received m f)) 0 l tr)).
Proof.
  intros R N. apply Z.eqb_neq in N.
  enter_body R. cbn [set_system_ids_seen set_packets_received expected_sysid].
  rewrite N. run_monad.
  apply (stats_tail tid env
           (mkLoop (count_filtered (count_received m f)) 0 l tr)).
Qed.

Lemma iteration_forwarded tid env f c l tr m :
  recv_result env = RecvMsg m ->
  get_srcSystem m = expected_sysid f ->
  sendto_result env = None ->
  iteration_m tid env (mkLoop f c l tr) =
  (inr tt,
   stats_check env
     (mkLoop (count_forwarded m (count_received m f)) 0 l
             (tr ++ [ESendto (get_msgbuf m) (broadcast_port f)]))).
Proof.
  intros R N Snd. apply Z.eqb_eq in N.
  enter_body R. cbn [set_system_ids_seen set_packets_received expected_sysid].
  rewrite N, Snd. run_monad.
  apply (stats_tail tid env
           (mkLoop (count_forwarded m (count_received m f)) 0 l
              (tr ++ [ESendto (get_msgbuf m) (broadcast_port f)]))).
Qed.

Lemma iteration_send_raise tid env f c l tr m e :
  recv_result env = RecvMsg m ->
  get_srcSystem m = expected_sysid f ->
  sendto_result env = Some e ->
  iteration_m tid env (mkLoop f c l tr) =
  (inr tt,
   mkLoop (count_received m f) 0 l
          (tr ++ error_effects tid (count_received m f) e)).
Proof.
  intros R N Snd. apply Z.eqb_eq in N.
  enter_body R. cbn [set_system_ids_seen set_packets_received expected_sysid].
  rewrite N, Snd. run_monad.
  rewrite <- app_assoc. reflexivity.
Qed.

(** Every iteration takes one of them and ends normally. *)
Lemma iteration_cases tid env s :
  iteration_m tid env s = (inr tt, iteration tid env s) /\
  iter_case tid env s (iteration tid env s).
Proof.
  unfold iteration. destruct s as [f c l tr].
  destruct (recv_result env) as [e | | m] eqn:R.
  - rewrite (iteration_recv_raise tid env f c l tr e R).
    split; [reflexivity | exact (IterRecvRaise tid env _ e R)].
  - rewrite (iteration_timeout tid env f c l tr R).
    split; [reflexivity | exact (IterTimeout tid env (mkLoop f c l tr) R)].
  - destruct (Z.eq_dec (get_srcSystem m) (expected_sysid f)) as [Eq | Ne].
    + destruct (sendto_result env) as [e |] eqn:Snd.
      * rewrite (iteration_send_raise tid env f c l tr m e R Eq Snd).
        split; [reflexivity |].
        exact (IterSendRaise tid env (mkLoop f c l tr) m e R Eq Snd).
      * rewrite (iteration_forwarded tid env f c l tr m R Eq Snd).
        split; [reflexivity |].
        exact (IterForwarded tid env (mkLoop f c l tr) m R Eq Snd).
    + rewrite (iteration_filtered tid env f c l tr m R Ne).
      split; [reflexivity |].
      exact (IterFiltered tid env (mkLoop f c l tr) m R Ne).
Qed.

Lemma stats_check_self env s : self (stats_check env s) = self s.
Proof. unfold stats_check. destruct (Qle_bool _ _); reflexivity. Qed.

Lemma stats_check_timeouts env s :
  consecutive_timeouts (stats_check env s) = consecutive_timeouts s.
Proof. unfold stats_check. destruct (Qle_bool _ _); reflexivity. Qed.

(** No iteration touches the flag or the configuration. *)
Lemma iteration_running tid env s :
  running (self (iteration tid env s)) = running (self s).
Proof.
  destruct (iteration_cases tid env s) as [_ C].
  destruct C; rewrite ?stats_check_self; try reflexivity.
  destruct (10 <=? _); reflexivity.
Qed.

Lemma iteration_config tid env s :
  let f' := self (iteration tid env s) in
  expected_sysid f' = expected_sysid (self s) /\
  broadcast_port f' = broadcast_port (self s) /\
  drone_id f' = drone_id (self s).
Proof.
  destruct (iteration_cases tid env s) as [_ C].
  destruct C; cbv zeta; rewrite ?stats_check_self; auto.
  destruct (10 <=? _); auto.
Qed.

(** ** The loop on a schedule *)

Lemma forward_loop_cons tid env envs s :
  running (self s) = true ->
  forward_loop tid (env :: envs) s = forward_loop tid envs (iteration tid env s).
Proof. intros H. simpl. rewrite H. reflexivity. Qed.

Lemma iteration_on_timeout tid env s :
  recv_result env = RecvNone ->
  iteration tid env s =
  if 10 <=? consecutive_timeouts s + 1
  then mkLoop (self s) 0 (last_stats_time s)
         (trace s ++
          [ELog WARNING (MsgNoData (drone_id (self s))
                           (consecutive_timeouts s + 1))])
  else mkLoop (self s) (consecutive_timeouts s + 1) (last_stats_time s)
         (trace s).
Proof.
  intros R. unfold iteration. destruct s as [f c l tr].
  rewrite (iteration_timeout tid env f c l tr R). reflexivity.
Qed.

Lemma timeout_below tid env f c l tr :
  recv_result env = RecvNone ->
  c + 1 < 10 ->
  iteration tid env (mkLoop f c l tr) = mkLoop f (c + 1) l tr.
Proof.
  intros R H. rewrite (iteration_on_timeout tid env _ R).
  cbn [self consecutive_timeouts last_stats_time trace].
  apply Z.leb_gt in H. rewrite H. reflexivity.
Qed.

Lemma timeout_reach tid env f c l tr :
  recv_result env = RecvNone ->
  10 <= c + 1 ->
  iteration tid env (mkLoop f c l tr) =
  mkLoop f 0 l (tr ++ [ELog WARNING (MsgNoData (drone_id f) (c + 1))]).
Proof.
  intros R H. rewrite (iteration_on_timeout tid env _ R).
  cbn [self consecutive_timeouts last_stats_time trace].
  apply Z.leb_le in H. rewrite H. reflexivity.
Qed.

(** A forwarder thread that is in its loop and reads the flag as set is
    still in its loop after the step, whatever the outside world did. *)
Lemma thread_step_iteration tid env w i c l f :
  threads w !! tid = Some (i, TLooping c l) ->
  forwarders w !! i = Some f ->
  running f = true ->
  let s := iteration tid env (mkLoop f c l (wtrace w)) in
  thread_step tid env w =
  mkWorld (<[i := self s]> (forwarders w))
          (set_thread_state tid
             (TLooping (consecutive_timeouts s) (last_stats_time s)) w)
          (trace s).
Proof.
  intros Ht Hf Hr. cbv zeta. unfold thread_step. rewrite Ht, Hf, Hr.
  destruct (iteration_cases tid env (mkLoop f c l (wtrace w))) as [E _].
  rewrite E. reflexivity.
Qed.

Lemma set_thread_state_lookup tid ts w i ts0 :
  threads w !! tid = Some (i, ts0) ->
  set_thread_state tid ts w !! tid = Some (i, ts).
Proof.
  intros H. unfold set_thread_state.
  rewrite list_lookup_alter, H. rewrite decide_True by reflexivity.
  reflexivity.
Qed.

(* ------------------------------------------------------------------ *)
(** ** Exceptions in the loop *)

(** C6: an exception raised by the receive, or by the send of a matching
    frame, is caught inside the iteration: it is logged at ERROR level, the
    thread pauses for 0.1 s, nothing propagates out of the iteration (for
    any behaviour of the outside world), the flag is untouched, and the loop
    and its thread go on with the next iteration. *)
Theorem loop_survives_exceptions (tid : nat) (env : Env) (s : loop_state)
    (e : exn) :
  recv_result env = RecvRaise e \/
  (exists m, recv_result env = RecvMsg m /\
             get_srcSystem m = expected_sysid (self s) /\
             sendto_result env = Some e) ->
  trace (iteration tid env s) =
    trace s ++ [ELog ERROR (MsgForwardError (drone_id (self s)) e);
                ESleep (Some tid) (1 # 10)] /\
  (forall env' s', iteration_escapes tid env' s' = None) /\
  running (self (iteration tid env s)) = running (self s) /\
  (forall envs, running (self s) = true ->
     forward_loop tid (env :: envs) s =
     forward_loop tid envs (iteration tid env s)) /\
  (forall w i,
     threads w !! tid =
       Some (i, TLooping (consecutive_timeouts s) (last_stats_time s)) ->
     forwarders w !! i = Some (self s) ->
     running (self s) = true ->
     exists c' l',
       threads (thread_step tid env w) !! tid = Some (i, TLooping c' l')).
Proof.
  intros H. repeat split.
  - destruct s as [f c l tr]. unfold iteration.
    destruct H as [R | (m & R & Eq & Snd)].
    + rewrite (iteration_recv_raise tid env f c l tr e R). reflexivity.
    + rewrite (iteration_send_raise tid env f c l tr m e R Eq Snd).
      reflexivity.
  - intros env' s'. unfold iteration_escapes.
    destruct (iteration_cases tid env' s') as [E _]. rewrite E. reflexivity.
  - apply iteration_running.
  - intros envs Hr. apply forward_loop_cons, Hr.
  - intros w i Ht Hf Hr.
    rewrite (thread_step_iteration tid env w i _ _ _ Ht Hf Hr).
    eexists _, _. cbn [threads].
    eapply set_thread_state_lookup, Ht.
Qed.

(* ------------------------------------------------------------------ *)
(** ** The silence warning *)

(** Any number of consecutive timeouts: the counter counts modulo 10 and
    one warning is logged each time it wraps. *)
Lemma timeouts_run tid envs :
  forall s,
    running (self s) = true ->
    Forall (fun env => recv_result env = RecvNone) envs ->
    0 <= consecutive_timeouts s < 10 ->
    let total := consecutive_timeouts s + Z.of_nat (length envs) in
    let s' := forward_loop tid envs s in
    self s' = self s /\
    consecutive_timeouts s' = total mod 10 /\
    trace s' =
      trace s ++
      repeat (ELog WARNING (MsgNoData (drone_id (self s)) 10))
             (Z.to_nat (total / 10)).
Proof.
  induction envs as [| env envs IH]; intros [f c l tr] Hrun Hall Hc;
    cbn [self consecutive_timeouts trace] in *; cbv zeta.
  - cbn [length forward_loop self consecutive_timeouts trace].
    rewrite Z.add_0_r, Z.mod_small, Z.div_small by lia.
    cbn. rewrite app_nil_r. auto.
  - apply Forall_cons_1 in Hall as [R Hall].
    rewrite forward_loop_cons by exact Hrun.
    replace (c + Z.of_nat (length (env :: envs)))
      with (c + 1 + Z.of_nat (length envs)) by (cbn [length]; lia).
    destruct (Z_lt_le_dec (c + 1) 10) as [Lt | Ge].
    + rewrite (timeout_below tid env f c l tr R Lt).
      apply (IH (mkLoop f (c + 1) l tr) Hrun Hall). cbn. lia.
    + assert (c = 9) by lia. subst c.
      rewrite (timeout_reach tid env f 9 l tr R Ge).
      destruct (IH (mkLoop f 0 l
                      (tr ++ [ELog WARNING (MsgNoData (drone_id f) (9 + 1))]))
                   Hrun Hall ltac:(cbn; lia)) as (I1 & I2 & I3).
      cbn [self consecutive_timeouts trace] in I1, I2, I3.
      set (n := Z.of_nat (length envs)) in *.
      assert (N : 0 <= n) by (unfold n; lia).
      assert (M : (9 + 1 + n) mod 10 = (0 + n) mod 10)
        by (Z.div_mod_to_equations; lia).
      assert (D : (9 + 1 + n) / 10 = 1 + (0 + n) / 10)
        by (Z.div_mod_to_equations; lia).
      assert (P : 0 <= (0 + n) / 10) by (Z.div_mod_to_equations; lia).
      rewrite M, D, Z2Nat.inj_add, I1, I2, I3 by lia.
      change (Z.to_nat 1) with 1%nat. cbn [Nat.add repeat].
      rewrite <- app_assoc. auto.
Qed.

(** C4: a timeout adds one to the consecutive-timeout counter; when that
    makes it reach 10, one warning is logged and the counter goes back to
    zero; a received frame resets the counter; a timeout does not touch the
    forwarder object, so the flag stays set and the loop goes on.  Over any
    run of consecutive timeouts one warning is logged per ten timeouts;
    twelve of them from a zero counter log exactly one warning, after the
    tenth, and leave the loop running with a counter of 2. *)
Theorem silence_warning (tid : nat) :
  (forall env s,
     recv_result env = RecvNone ->
     let s' := iteration tid env s in
     self s' = self s /\
     (consecutive_timeouts s + 1 < 10 ->
        consecutive_timeouts s' = consecutive_timeouts s + 1 /\
        trace s' = trace s) /\
     (10 <= consecutive_timeouts s + 1 ->
        consecutive_timeouts s' = 0 /\
        trace s' =
          trace s ++ [ELog WARNING (MsgNoData (drone_id (self s))
                                       (consecutive_timeouts s + 1))])) /\
  (forall env s m,
     recv_result env = RecvMsg m ->
     consecutive_timeouts (iteration tid env s) = 0 /\
     running (self (iteration tid env s)) = running (self s)) /\
  (forall envs s,
     running (self s) = true ->
     Forall (fun env => recv_result env = RecvNone) envs ->
     0 <= consecutive_timeouts s < 10 ->
     let total := consecutive_timeouts s + Z.of_nat (length envs) in
     let s' := forward_loop tid envs s in
     self s' = self s /\
     consecutive_timeouts s' = total mod 10 /\
     trace s' =
       trace s ++
       repeat (ELog WARNING (MsgNoData (drone_id (self s)) 10))
              (Z.to_nat (total / 10))) /\
  (forall envs s,
     length envs = 12%nat ->
     Forall (fun env => recv_result env = RecvNone) envs ->
     running (self s) = true ->
     consecutive_timeouts s = 0 ->
     let s' := forward_loop tid envs s in
     trace s' = trace s ++ [ELog WARNING (MsgNoData (drone_id (self s)) 10)] /\
     self s' = self s /\
     consecutive_timeouts s' = 2).
Proof.
  split; [| split; [| split]].
  - intros env s R. cbv zeta. rewrite (iteration_on_timeout tid env s R).
    destruct (10 <=? consecutive_timeouts s + 1) eqn:E.
    + apply Z.leb_le in E. cbn. repeat split; try reflexivity; lia.
    + apply Z.leb_gt in E. cbn. repeat split; try reflexivity; lia.
  - intros env s m R. split; [| apply iteration_running].
    destruct (iteration_cases tid env s) as [_ C].
    destruct C; try congruence; rewrite ?stats_check_timeouts; reflexivity.
  - intros envs s Hrun Hall Hc. apply timeouts_run; assumption.
  - intros envs s Hlen Hall Hrun Hc. cbv zeta.
    destruct (timeouts_run tid envs s Hrun Hall ltac:(lia)) as (T1 & T2 & T3).
    rewrite Hlen, Hc in T2, T3.
    rewrite T1, T2, T3. repeat split.
Qed.

(* ------------------------------------------------------------------ *)
(** ** Filtering and relaying *)

Lemma total_len_cons m ms :
  total_len (m :: ms) = len (get_msgbuf m) + total_len ms.
Proof. reflexivity. Qed.

Lemma sent_app tr1 tr2 : sent (tr1 ++ tr2) = sent tr1 ++ sent tr2.
Proof. unfold sent. apply flat_map_app. Qed.

Lemma sent_stats_lines env f : sent (stats_lines env f) = [].
Proof. unfold stats_lines. destruct (py_pos _); reflexivity. Qed.

Lemma sent_stats_check env s : sent (trace (stats_check env s)) = sent (trace s).
Proof.
  unfold stats_check. destruct (Qle_bool _ _); [| reflexivity].
  cbn [trace]. rewrite sent_app, sent_stats_lines, app_nil_r. reflexivity.
Qed.

Lemma filter_split_length {A} (p : A -> bool) (l : list A) :
  (length (List.filter p l) + length (List.filter (fun x => negb (p x)) l)
   = length l)%nat.
Proof.
  induction l as [| a l IH]; [reflexivity |].
  simpl. destruct (p a); simpl; lia.
Qed.

(** The loop on a schedule on which no send raises, from any running
    state. *)
Lemma relay_run tid envs :
  forall s,
    running (self s) = true ->
    forallb (send_succeeds (expected_sysid (self s))) envs = true ->
    let s' := forward_loop tid envs s in
    let id := expected_sysid (self s) in
    let ok := List.filter (matching id) (frames envs) in
    let dropped := List.filter (non_matching id) (frames envs) in
    sent (trace s') =
      sent (trace s) ++
      map (fun m => (get_msgbuf m, broadcast_port (self s))) ok /\
    packets_received (self s') =
      packets_received (self s) + Z.of_nat (length (frames envs)) /\
    packets_forwarded (self s') =
      packets_forwarded (self s) + Z.of_nat (length ok) /\
    packets_filtered (self s') =
      packets_filtered (self s) + Z.of_nat (length dropped) /\
    bytes_forwarded (self s') = bytes_forwarded (self s) + total_len ok.
Proof.
  induction envs as [| env envs IH]; intros s Hrun Hok; cbv zeta.
  - cbn. rewrite app_nil_r. repeat split; lia.
  - cbn [forallb] in Hok. apply andb_true_iff in Hok as [Hok1 Hok].
    rewrite forward_loop_cons by exact Hrun.
    pose proof (iteration_running tid env s) as Hrun'.
    rewrite Hrun in Hrun'.
    destruct (iteration_config tid env s) as (Hid & Hport & _).
    rewrite <- Hid in Hok.
    specialize (IH (iteration tid env s) Hrun' Hok). cbv zeta in IH.
    rewrite Hid, Hport in IH.
    destruct IH as (IH1 & IH2 & IH3 & IH4 & IH5).
    rewrite IH1, IH2, IH3, IH4, IH5. clear IH1 IH2 IH3 IH4 IH5.
    destruct (iteration_cases tid env s) as [_ C].
    unfold send_succeeds in Hok1.
    destruct C as [R | e R | m R Ne | m R Eq Snd | m e R Eq Snd];
      rewrite R in Hok1;
      unfold frames; cbn [flat_map]; rewrite R; fold (frames envs).
    + destruct (10 <=? _); cbn [self trace app]; rewrite ?sent_app;
        cbn [sent flat_map app]; rewrite ?app_nil_r; repeat split; lia.
    + cbn [self trace app]. rewrite sent_app.
      cbn [sent error_effects flat_map app]. rewrite app_nil_r.
      repeat split; lia.
    + assert (M : matching (expected_sysid (self s)) m = false)
        by (apply Z.eqb_neq; exact Ne).
      rewrite sent_stats_check, stats_check_self.
      unfold non_matching. cbn [app List.filter]. rewrite M.
      cbn [negb length map trace self count_filtered count_received
           set_packets_filtered set_system_ids_seen set_packets_received
           packets_received packets_forwarded packets_filtered
           bytes_forwarded].
      repeat split; lia.
    + assert (M : matching (expected_sysid (self s)) m = true)
        by (apply Z.eqb_eq; exact Eq).
      rewrite sent_stats_check, stats_check_self.
      unfold non_matching. cbn [app List.filter]. rewrite M.
      cbn [negb length map trace self count_forwarded count_received
           set_packets_forwarded set_bytes_forwarded set_system_ids_seen
           set_packets_received packets_received packets_forwarded
           packets_filtered bytes_forwarded].
      rewrite total_len_cons.
      rewrite sent_app. cbn [sent flat_map app].
      rewrite <- app_assoc. cbn [app].
      repeat split; lia.
    + assert (M : matching (expected_sysid (self s)) m = true)
        by (apply Z.eqb_eq; exact Eq).
      rewrite M, Snd in Hok1. discriminate Hok1.
Qed.

(** C2 as the code has it: on any schedule of received frames (with
    timeouts and failed receives in between) on which no send raises, the
    loop puts on the wire, in arrival order and byte for byte, the frames whose sender is the
    expected system and only those; every other frame is dropped and counted
    as filtered.  With 100 frames of which 60 carry the expected id, a fresh
    forwarder ends with 60 forwarded, 40 filtered, and the summed length of
    the 60 as forwarded bytes. *)
Theorem relay_matching_subsequence (tid : nat) (envs : list Env)
    (s : loop_state) :
  running (self s) = true ->
  forallb (send_succeeds (expected_sysid (self s))) envs = true ->
  let s' := forward_loop tid envs s in
  let id := expected_sysid (self s) in
  let ok := List.filter (matching id) (frames envs) in
  let dropped := List.filter (non_matching id) (frames envs) in
  (sent (trace s') =
     sent (trace s) ++
     map (fun m => (get_msgbuf m, broadcast_port (self s))) ok /\
   packets_forwarded (self s') =
     packets_forwarded (self s) + Z.of_nat (length ok) /\
   packets_filtered (self s') =
     packets_filtered (self s) + Z.of_nat (length dropped) /\
   bytes_forwarded (self s') = bytes_forwarded (self s) + total_len ok) /\
  (packets_forwarded (self s) = 0 ->
   packets_filtered (self s) = 0 ->
   bytes_forwarded (self s) = 0 ->
   length (frames envs) = 100%nat ->
   length ok = 60%nat ->
   length dropped = 40%nat /\
   packets_forwarded (self s') = 60 /\
   packets_filtered (self s') = 40 /\
   bytes_forwarded (self s') = total_len ok).
Proof.
  intros Hrun Hok. cbv zeta.
  destruct (relay_run tid envs s Hrun Hok) as (H1 & _ & H3 & H4 & H5).
  split; [repeat split; assumption |].
  intros Z1 Z2 Z3 L100 L60.
  pose proof (filter_split_length (matching (expected_sysid (self s)))
                (frames envs)) as P.
  fold (non_matching (expected_sysid (self s))) in P.
  change (fun x => negb (matching (expected_sysid (self s)) x))
    with (non_matching (expected_sysid (self s))) in P.
  rewrite H3, H4, H5, Z1, Z2, Z3.
  repeat split; lia.
Qed.

(* ------------------------------------------------------------------ *)
(** ** Derived metrics *)

Lemma forward_rate_hz_run {S} (d : pynum) (f : Forwarder) (s : S) :
  forward_rate_hz d f s =
  (inr (if py_pos d
        then PyFloat (inject_Z (packets_forwarded f) / to_Q d)
        else PyInt 0), s).
Proof.
  unfold forward_rate_hz. destruct (py_pos d) eqn:E; [| reflexivity].
  unfold truediv. rewrite (py_pos_nonzero _ E). reflexivity.
Qed.

Lemma bandwidth_kbps_run {S} (d : pynum) (f : Forwarder) (s : S) :
  bandwidth_kbps d f s =
  (inr (if py_pos d
        then PyFloat (inject_Z (bytes_forwarded f * 8) / inject_Z 1024 / to_Q d)
        else PyInt 0), s).
Proof.
  unfold bandwidth_kbps. destruct (py_pos d) eqn:E; [| reflexivity].
  unfold bind, truediv. cbn [to_Q].
  rewrite (inject_Z_nonzero 1024) by lia. cbn [ret to_Q].
  rewrite (py_pos_nonzero _ E). reflexivity.
Qed.

(** C3: [get_stats] never raises and changes nothing, and in the dictionary
    it returns [filter_percentage] is the integer 0 when [packets_received]
    is zero or less, and [forward_rate_hz] and [bandwidth_kbps] are the
    integer 0 when the elapsed time is zero or less (which includes a
    forwarder that was never started). *)
Theorem derived_metrics_zero (now : Q) (f : Forwarder) :
  exists st,
    get_stats now f = (inr st, f) /\
    (packets_received f <= 0 -> stats_filter_percentage st = PyInt 0) /\
    ((to_Q (duration now f) <= 0)%Q ->
       stats_forward_rate_hz st = PyInt 0 /\
       stats_bandwidth_kbps st = PyInt 0) /\
    (start_time f = None ->
       stats_forward_rate_hz st = PyInt 0 /\
       stats_bandwidth_kbps st = PyInt 0).
Proof.
  unfold get_stats. unfold bind at 1. unfold gets at 1, id.
  unfold bind at 1. rewrite filter_percentage_run.
  unfold bind at 1. rewrite forward_rate_hz_run.
  unfold bind at 1. rewrite bandwidth_kbps_run.
  eexists. split; [reflexivity |]. cbn.
  assert (D : (to_Q (duration now f) <= 0)%Q ->
              py_pos (duration now f) = false).
  { intros L. destruct (py_pos (duration now f)) eqn:E; [| reflexivity].
    apply py_pos_spec in E. exfalso. exact (Qlt_not_le _ _ E L). }
  split; [| split].
  - intros L. unfold filter_pct_value.
    destruct (0 <? packets_received f) eqn:E; [| reflexivity].
    apply Z.ltb_lt in E. lia.
  - intros L. rewrite (D L). split; reflexivity.
  - intros N. unfold duration. rewrite N. split; reflexivity.
Qed.

(* ------------------------------------------------------------------ *)
(** ** The periodic statistics line *)

Lemma stats_logged_app tr1 tr2 :
  stats_logged (tr1 ++ tr2) = (stats_logged tr1 + stats_logged tr2)%nat.
Proof. unfold stats_logged. rewrite List.filter_app, length_app. reflexivity. Qed.

Lemma stats_logged_lines env f :
  stats_logged (stats_lines env f) =
  if py_pos (duration (time_stats env) f) then 1%nat else 0%nat.
Proof. unfold stats_lines. destruct (py_pos _); reflexivity. Qed.

Lemma stats_check_due env s :
  (10 <= time_loop env - last_stats_time s)%Q ->
  last_stats_time (stats_check env s) = time_loop env /\
  stats_logged (trace (stats_check env s)) =
    (stats_logged (trace s) +
     if py_pos (duration (time_stats env) (self s)) then 1 else 0)%nat.
Proof.
  intros H. apply Qle_bool_iff in H. unfold stats_check. rewrite H.
  cbn [last_stats_time trace].
  rewrite stats_logged_app, stats_logged_lines. split; reflexivity.
Qed.

Lemma stats_check_not_due env s :
  (time_loop env - last_stats_time s < 10)%Q ->
  stats_check env s = s.
Proof.
  intros H. unfold stats_check.
  destruct (Qle_bool 10 (time_loop env - last_stats_time s)) eqn:E;
    [| reflexivity].
  apply Qle_bool_iff in E. exfalso. exact (Qlt_not_le _ _ H E).
Qed.

(** C8 as the code has it: the statistics are looked at only by an
    iteration that received a frame and raised nothing.  Such an iteration
    calls [_log_stats] and moves [last_stats_time] to the current time when
    at least 10 s have passed since [last_stats_time], and [_log_stats]
    writes its line when the time since [start_time] is positive; when less
    than 10 s have passed it writes nothing.  An iteration that timed out or
    raised writes no statistics line and leaves [last_stats_time] alone,
    however long ago the last report was. *)
Theorem stats_gated_by_timestamp (tid : nat) (env : Env) (s : loop_state) :
  let s' := iteration tid env s in
  (reaches_stats_check env s = true ->
   (10 <= time_loop env - last_stats_time s)%Q ->
   last_stats_time s' = time_loop env /\
   stats_logged (trace s') =
     (stats_logged (trace s) +
      if py_pos (duration (time_stats env) (self s)) then 1 else 0)%nat) /\
  (reaches_stats_check env s = true ->
   (time_loop env - last_stats_time s < 10)%Q ->
   last_stats_time s' = last_stats_time s /\
   stats_logged (trace s') = stats_logged (trace s)) /\
  (reaches_stats_check env s = false ->
   last_stats_time s' = last_stats_time s /\
   stats_logged (trace s') = stats_logged (trace s)).
Proof.
  cbv zeta. unfold reaches_stats_check.
  destruct (iteration_cases tid env s) as [_ C].
  destruct C as [R | e R | m R Ne | m R Eq Snd | m e R Eq Snd]; rewrite R.
  - split; [| split]; try discriminate. intros _.
    destruct (10 <=? _); cbn [last_stats_time trace];
      rewrite ?stats_logged_app; cbn; split; auto with arith.
  - split; [| split]; try discriminate. intros _.
    cbn [last_stats_time trace]. rewrite stats_logged_app. cbn.
    split; auto with arith.
  - assert (M : matching (expected_sysid (self s)) m = false)
      by (apply Z.eqb_neq; exact Ne).
    rewrite M. split; [| split]; try discriminate.
    + intros _ H.
      apply (stats_check_due env
               (mkLoop (count_filtered (count_received m (self s))) 0
                       (last_stats_time s) (trace s)) H).
    + intros _ H. rewrite stats_check_not_due by exact H. split; reflexivity.
  - assert (M : matching (expected_sysid (self s)) m = true)
      by (apply Z.eqb_eq; exact Eq).
    rewrite M, Snd. split; [| split]; try discriminate.
    + intros _ H.
      destruct (stats_check_due env
               (mkLoop (count_forwarded m (count_received m (self s))) 0
                       (last_stats_time s)
                       (trace s ++
                        [ESendto (get_msgbuf m) (broadcast_port (self s))]))
               H) as [H1 H2].
      split; [exact H1 |]. rewrite H2. cbn [trace self].
      rewrite stats_logged_app.
      change (stats_logged
                [ESendto (get_msgbuf m) (broadcast_port (self s))])
        with 0%nat.
      change (duration (time_stats env)
                (count_forwarded m (count_received m (self s))))
        with (duration (time_stats env) (self s)).
      destruct (py_pos _); lia.
    + intros _ H. rewrite stats_check_not_due by exact H.
      cbn [last_stats_time trace]. rewrite stats_logged_app. cbn.
      split; auto with arith.
  - assert (M : matching (expected_sysid (self s)) m = true)
      by (apply Z.eqb_eq; exact Eq).
    rewrite M, Snd. split; [| split]; try discriminate. intros _.
    cbn [last_stats_time trace]. rewrite stats_logged_app. cbn.
    split; auto with arith.
Qed.

(* ------------------------------------------------------------------ *)
(** ** How one event changes the forwarder objects *)

Lemma Forall2_same ev (l : list Forwarder) : Forall2 (obj_step ev) l l.
Proof. induction l; constructor; [apply ObjSame | assumption]. Qed.

Lemma Forall2_update ev (l : list Forwarder) i f f' :
  l !! i = Some f ->
  obj_step ev f f' ->
  Forall2 (obj_step ev) l (<[i := f']> l).
Proof.
  revert i. induction l as [| x l IH]; intros [| i] H Hs; try discriminate.
  - injection H as ->. constructor; [exact Hs | apply Forall2_same].
  - constructor; [apply ObjSame | apply IH; assumption].
Qed.

Lemma step_objs ev w :
  Forall2 (obj_step ev) (forwarders w) (forwarders (step ev w)).
Proof.
  destruct ev as [i now | i | tid env | secs | lvl m]; cbn [step].
  - unfold start. destruct (forwarders w !! i) as [f |] eqn:Hf;
      [| apply Forall2_same].
    destruct (running f) eqn:Hr; [apply Forall2_same |].
    cbn [forwarders]. eapply Forall2_update; [exact Hf |].
    apply ObjStart, Hr.
  - unfold stop. destruct (forwarders w !! i) as [f |] eqn:Hf;
      [| apply Forall2_same].
    cbn [forwarders]. eapply Forall2_update; [exact Hf | apply ObjStop].
  - unfold thread_step.
    destruct (threads w !! tid) as [[i ts] |]; [| apply Forall2_same].
    destruct (forwarders w !! i) as [f |] eqn:Hf; [| apply Forall2_same].
    destruct ts as [| c l | | e].
    + unfold forward_loop_prologue.
      destruct (connection_result env); cbn [forwarders];
        [apply Forall2_same |].
      eapply Forall2_update; [exact Hf | apply ObjConnect].
    + destruct (running f) eqn:Hr; [| apply Forall2_same].
      destruct (iteration_cases tid env (mkLoop f c l (wtrace w))) as [E _].
      rewrite E. cbn [forwarders].
      eapply Forall2_update; [exact Hf |]. apply ObjIter, Hr.
    + apply Forall2_same.
    + apply Forall2_same.
  - apply Forall2_same.
  - apply Forall2_same.
Qed.

Lemma run_cons ev evs w : run (ev :: evs) w = run evs (step ev w).
Proof. reflexivity. Qed.

(** A property of forwarder objects kept by every allowed event holds
    along every run. *)
Lemma run_invariant (P : Forwarder -> Prop) (allowed : event -> Prop) :
  (forall ev f f', allowed ev -> obj_step ev f f' -> P f -> P f') ->
  forall evs w,
    Forall allowed evs ->
    Forall P (forwarders w) ->
    Forall P (forwarders (run evs w)).
Proof.
  intros Hstep. induction evs as [| ev evs IH]; intros w Hall HP.
  - exact HP.
  - rewrite run_cons. apply Forall_cons_1 in Hall as [Hev Hall].
    apply IH; [exact Hall |].
    pose proof (step_objs ev w) as F2.
    induction F2 as [| f f' l l' Hs _ IHF]; [constructor |].
    apply Forall_cons_1 in HP as [Pf Pl].
    constructor; [exact (Hstep ev f f' Hev Hs Pf) | exact (IHF Pl)].
Qed.

(** A relation between the old and the new object, reflexive and
    transitive and respected by every event, relates the objects at the
    two ends of a run. *)
Lemma run_related (R : Forwarder -> Forwarder -> Prop) :
  (forall f, R f f) ->
  (forall f g h, R f g -> R g h -> R f h) ->
  (forall ev f f', obj_step ev f f' -> R f f') ->
  forall evs w i f,
    forwarders w !! i = Some f ->
    exists f', forwarders (run evs w) !! i = Some f' /\ R f f'.
Proof.
  intros Hrefl Htrans Hstep.
  induction evs as [| ev evs IH]; intros w i f Hf.
  - exists f. split; [exact Hf | apply Hrefl].
  - rewrite run_cons.
    pose proof (step_objs ev w) as F2.
    destruct (Forall2_lookup_l _ _ _ _ _ F2 Hf) as (g & Hg & Hfg).
    destruct (IH (step ev w) i g Hg) as (h & Hh & Hgh).
    exists h. split; [exact Hh |].
    exact (Htrans f g h (Hstep ev f g Hfg) Hgh).
Qed.

(** The counters of the object left by an iteration. *)
Lemma iteration_counters tid env s :
  let f := self s in
  let f' := self (iteration tid env s) in
  (f' = f) \/
  (exists m, f' = count_filtered (count_received m f)) \/
  (exists m, sendto_result env = None /\
             f' = count_forwarded m (count_received m f)) \/
  (exists m e, sendto_result env = Some e /\ f' = count_received m f).
Proof.
  cbv zeta. destruct (iteration_cases tid env s) as [_ C].
  destruct C as [R | e R | m R Ne | m R Eq Snd | m e R Eq Snd];
    rewrite ?stats_check_self; cbn [self].
  - left. destruct (10 <=? _); reflexivity.
  - left. reflexivity.
  - right; left. eauto.
  - right; right; left. eauto.
  - right; right; right. eauto.
Qed.

(** [start_all] only does what a sequence of events does, so what holds
    along every run holds after it. *)
Lemma run_app evs1 evs2 w : run (evs1 ++ evs2) w = run evs2 (run evs1 w).
Proof. unfold run. apply foldl_app. Qed.

Lemma run_threads_run during w :
  run_threads during w =
  run (map (fun p => EvThread (fst p) (snd p)) during) w.
Proof.
  revert w. induction during as [| [tid env] during IH]; intros w;
    [reflexivity |].
  cbn [map]. rewrite run_cons. apply IH.
Qed.

Lemma start_all_run sched w : exists evs, start_all sched w = run evs w.
Proof.
  unfold start_all.
  assert (F : forall l w0, exists evs,
             foldl (fun w i => sleep 1 (snd (sched i))
                                 (start i (fst (sched i)) w)) w0 l
             = run evs w0).
  { induction l as [| i l IH]; intros w0; [exists []; reflexivity |].
    cbn [foldl].
    destruct (IH (sleep 1 (snd (sched i)) (start i (fst (sched i)) w0)))
      as [evs E].
    exists ([EvStart i (fst (sched i)); EvSleep 1] ++
            map (fun p => EvThread (fst p) (snd p)) (snd (sched i)) ++ evs).
    rewrite E, !run_app. unfold sleep. rewrite run_threads_run. reflexivity. }
  destruct (F (seq 0 (length (forwarders w)))
              (emit_w [ELog INFO MsgStartingAll] w)) as [evs E].
  rewrite E.
  eexists ([EvLog INFO MsgStartingAll] ++ evs ++ [EvLog INFO _]).
  rewrite !run_app. reflexivity.
Qed.

(* ------------------------------------------------------------------ *)
(** ** [start] and [stop] *)

Lemma start_lookup_ne i j now w :
  i <> j -> forwarders (start i now w) !! j = forwarders w !! j.
Proof.
  intros N. unfold start.
  destruct (forwarders w !! i) as [f |]; [| reflexivity].
  destruct (running f); [reflexivity |].
  cbn [forwarders]. apply list_lookup_insert_ne, N.
Qed.

Lemma start_fresh i now w f :
  forwarders w !! i = Some f ->
  running f = false ->
  start i now w =
  mkWorld
    (<[i := set_thread (Some (length (threads w)))
              (set_start_time (Some now) (set_running true f))]>
       (forwarders w))
    (threads w ++ [(i, TCreated)])
    (wtrace w ++
       [EThreadStart (length (threads w));
        ELog INFO (MsgForwarderStarted (drone_id f) (px4_port f)
                     (broadcast_port f) (expected_sysid f))]).
Proof. intros Hf Hr. unfold start. rewrite Hf, Hr. reflexivity. Qed.

(** C9: [start()] on a forwarder that is already running changes nothing at
    all: no field of any object, no thread, no log record.  On a forwarder
    that is not running it records [start_time], sets [running], and starts
    one new thread for the loop, leaving the other forwarders alone. *)
Theorem start_idempotent (i : nat) (now : Q) (w : World) (f : Forwarder) :
  forwarders w !! i = Some f ->
  (running f = true -> start i now w = w) /\
  (running f = false ->
     let w' := start i now w in
     exists f',
       forwarders w' !! i = Some f' /\
       f' = set_thread (Some (length (threads w)))
              (set_start_time (Some now) (set_running true f)) /\
       running f' = true /\
       start_time f' = Some now /\
       thread f' = Some (length (threads w)) /\
       threads w' = threads w ++ [(i, TCreated)] /\
       (forall j, j <> i -> forwarders w' !! j = forwarders w !! j)).
Proof.
  intros Hf. split.
  - intros Hr. unfold start. rewrite Hf, Hr. reflexivity.
  - intros Hr. cbv zeta. eexists. split; [| split; [reflexivity |]].
    + rewrite (start_fresh i now w f Hf Hr). cbn [forwarders].
      apply list_lookup_insert_eq. eapply lookup_lt_Some, Hf.
    + repeat split.
      * rewrite (start_fresh i now w f Hf Hr). reflexivity.
      * intros j N. apply start_lookup_ne. auto.
Qed.

Lemma counters_le_refl f : counters_le f f.
Proof. unfold counters_le. repeat split; (lia || set_solver). Qed.

Lemma counters_le_trans f g h :
  counters_le f g -> counters_le g h -> counters_le f h.
Proof.
  unfold counters_le. intros (A1 & A2 & A3 & A4 & A5) (B1 & B2 & B3 & B4 & B5).
  repeat split; (lia || set_solver).
Qed.

Lemma obj_step_counters_le ev f f' : obj_step ev f f' -> counters_le f f'.
Proof.
  intros H. destruct H as [ev f | i now tid f Hr | i f | tid env f
                          | tid env f c l tr Hr].
  - apply counters_le_refl.
  - apply (counters_le_refl f).
  - apply (counters_le_refl f).
  - apply (counters_le_refl f).
  - destruct (iteration_counters tid env (mkLoop f c l tr))
      as [E | [(m & E) | [(m & _ & E) | (m & e & _ & E)]]];
      cbv zeta in E; cbn [self] in E; rewrite E;
      unfold counters_le, count_filtered, count_forwarded, count_received, len;
      cbn; repeat split; (lia || set_solver).
Qed.

Lemma running_after_obj_step ev f f' :
  obj_step ev f f' ->
  running f = false ->
  (forall i now, ev <> EvStart i now) ->
  running f' = false.
Proof.
  intros H Hr N. destruct H as [ev f | i now tid f _ | i f | tid env f
                               | tid env f c l tr Hr'].
  - exact Hr.
  - exfalso. exact (N i now eq_refl).
  - reflexivity.
  - exact Hr.
  - congruence.
Qed.

(** C7 as the code has it: [stop()] clears the flag and nothing but a call
    of [start()] on that forwarder sets it again; the code has no guard
    against that call, which puts the same object back to running with a
    new thread and a new [start_time] and with its counters as they were.
    No event ever lowers a counter or forgets a sender: only constructing a
    new object gives zeroed counters. *)
Theorem restart_in_place_keeps_counters :
  (forall i now w f,
     forwarders w !! i = Some f ->
     exists g g',
       forwarders (stop i w) !! i = Some g /\
       running g = false /\
       forwarders (start i now (stop i w)) !! i = Some g' /\
       running g' = true /\
       start_time g' = Some now /\
       thread g' = Some (length (threads w)) /\
       packets_received g' = packets_received f /\
       packets_forwarded g' = packets_forwarded f /\
       packets_filtered g' = packets_filtered f /\
       bytes_forwarded g' = bytes_forwarded f /\
       system_ids_seen g' = system_ids_seen f) /\
  (forall ev w i f,
     forwarders w !! i = Some f ->
     running f = false ->
     (forall now, ev <> EvStart i now) ->
     exists f', forwarders (step ev w) !! i = Some f' /\ running f' = false) /\
  (forall evs w i f,
     forwarders w !! i = Some f ->
     exists f', forwarders (run evs w) !! i = Some f' /\ counters_le f f').
Proof.
  split; [| split].
  - intros i now w f Hf.
    assert (Hlt : (i < length (forwarders w))%nat)
      by (eapply lookup_lt_Some, Hf).
    assert (Hg : forwarders (stop i w) !! i = Some (set_running false f)).
    { unfold stop. rewrite Hf. cbn [forwarders].
      apply list_lookup_insert_eq, Hlt. }
    assert (Ht : threads (stop i w) = threads w).
    { unfold stop. rewrite Hf. reflexivity. }
    exists (set_running false f). eexists.
    split; [exact Hg |]. split; [reflexivity |].
    rewrite (start_fresh i now (stop i w) _ Hg eq_refl). cbn [forwarders].
    split.
    + apply list_lookup_insert_eq.
      eapply lookup_lt_Some, Hg.
    + rewrite Ht. repeat split.
  - intros ev w i f Hf Hr N.
    destruct ev as [j now | j | tid env | secs | lvl m].
    + exists f. split; [| exact Hr]. cbn [step].
      rewrite start_lookup_ne; [exact Hf |].
      intros ->. exact (N now eq_refl).
    + destruct (Forall2_lookup_l _ _ _ _ _ (step_objs (EvStop j) w) Hf)
        as (g & Hg & Hs).
      exists g. split; [exact Hg |].
      apply (running_after_obj_step _ _ _ Hs Hr). discriminate.
    + destruct (Forall2_lookup_l _ _ _ _ _ (step_objs (EvThread tid env) w) Hf)
        as (g & Hg & Hs).
      exists g. split; [exact Hg |].
      apply (running_after_obj_step _ _ _ Hs Hr). discriminate.
    + exists f. split; [exact Hf | exact Hr].
    + exists f. split; [exact Hf | exact Hr].
  - intros evs w i f Hf.
    apply (run_related counters_le counters_le_refl counters_le_trans
             obj_step_counters_le evs w i f Hf).
Qed.

(* ------------------------------------------------------------------ *)
(** ** The counter equation *)

Lemma forallb_Forall {A} (p : A -> bool) (l : list A) :
  forallb p l = true -> Forall (fun x => p x = true) l.
Proof.
  induction l as [| a l IH]; intros H; [constructor |].
  cbn in H. apply andb_true_iff in H as [H1 H2].
  constructor; [exact H1 | exact (IH H2)].
Qed.

Lemma init_counters (cfg : list Config) (P : Forwarder -> Prop) :
  (forall px4 bcast sysid drone, P (init px4 bcast sysid drone)) ->
  Forall P (forwarders (manager_init cfg)).
Proof.
  intros H. unfold manager_init. cbn [forwarders].
  induction cfg; constructor; [apply H | assumption].
Qed.

(** C1 as the code has it: between iterations, in every state reachable
    from construction by calls of [start] and [stop] and steps of the
    forwarder threads, the frames counted as forwarded or filtered never
    exceed those counted as received, and the three counters balance as long
    as no [sendto] has raised.  A matching frame whose [sendto] raises has
    already been counted as received and is counted as nothing else. *)
Theorem counters_account (cfg : list Config) (evs : list event) (i : nat)
    (f : Forwarder) :
  forwarders (run evs (manager_init cfg)) !! i = Some f ->
  packets_forwarded f + packets_filtered f <= packets_received f /\
  (forallb no_failed_send evs = true ->
   packets_received f = packets_forwarded f + packets_filtered f) /\
  (forall tid env s m e,
     recv_result env = RecvMsg m ->
     get_srcSystem m = expected_sysid (self s) ->
     sendto_result env = Some e ->
     let f' := self (iteration tid env s) in
     packets_received f' = packets_received (self s) + 1 /\
     packets_forwarded f' = packets_forwarded (self s) /\
     packets_filtered f' = packets_filtered (self s)).
Proof.
  intros Hf. split; [| split].
  - assert (H : Forall (fun f => packets_forwarded f + packets_filtered f
                                 <= packets_received f)
                  (forwarders (run evs (manager_init cfg)))).
    { apply (run_invariant _ (fun _ => True)).
      - intros ev g g' _ Hs Hg.
        apply obj_step_counters_le in Hs as Hle.
        destruct Hs as [ev g | j now tid g Hr | j g | tid env g
                       | tid env g c l tr Hr]; try exact Hg.
        destruct (iteration_counters tid env (mkLoop g c l tr))
          as [E | [(m & E) | [(m & _ & E) | (m & e & _ & E)]]];
          cbv zeta in E; cbn [self] in E; rewrite E;
          unfold count_filtered, count_forwarded, count_received; cbn; lia.
      - apply Forall_true. auto.
      - apply init_counters. intros. cbn. lia. }
    exact (Forall_lookup_1 _ _ _ _ H Hf).
  - intros Hok.
    assert (H : Forall (fun f => packets_received f
                                 = packets_forwarded f + packets_filtered f)
                  (forwarders (run evs (manager_init cfg)))).
    { apply (run_invariant _ (fun ev => no_failed_send ev = true)).
      - intros ev g g' Hev Hs Hg.
        destruct Hs as [ev g | j now tid g Hr | j g | tid env g
                       | tid env g c l tr Hr]; try exact Hg.
        cbn [no_failed_send] in Hev.
        destruct (iteration_counters tid env (mkLoop g c l tr))
          as [E | [(m & E) | [(m & _ & E) | (m & e & Snd & E)]]];
          cbv zeta in E; cbn [self] in E;
          try (rewrite Snd in Hev; discriminate Hev);
          rewrite E;
          unfold count_filtered, count_forwarded, count_received; cbn; lia.
      - apply forallb_Forall, Hok.
      - apply init_counters. intros. cbn. lia. }
    exact (Forall_lookup_1 _ _ _ _ H Hf).
  - intros tid env s m e R Eq Snd. cbv zeta. unfold iteration.
    destruct s as [g c l tr]. cbn [self] in Eq.
    rewrite (iteration_send_raise tid env g c l tr m e R Eq Snd).
    cbn. repeat split; lia.
Qed.

(* ------------------------------------------------------------------ *)
(** ** [start_all] *)

Lemma thread_obj_step_lifecycle tid env f f' :
  obj_step (EvThread tid env) f f' -> same_lifecycle f f'.
Proof.
  intros H. inversion H as [ | | | | tid' env' f0 c l tr Hr]; subst.
  - repeat split.
  - repeat split.
  - destruct (iteration_counters tid env (mkLoop f c l tr))
      as [E | [(m & E) | [(m & _ & E) | (m & e & _ & E)]]];
      cbv zeta in E; cbn [self] in E; rewrite E; repeat split.
Qed.

Lemma caller_effects_app tr1 tr2 :
  caller_effects (tr1 ++ tr2) = caller_effects tr1 ++ caller_effects tr2.
Proof. apply List.filter_app. Qed.

Lemma caller_effects_stats_check env s :
  caller_effects (trace (stats_check env s)) = caller_effects (trace s).
Proof.
  unfold stats_check. destruct (Qle_bool _ _); [| reflexivity].
  cbn [trace]. rewrite caller_effects_app. unfold stats_lines.
  destruct (py_pos _); cbn; rewrite app_nil_r; reflexivity.
Qed.

Lemma caller_effects_iteration tid env s :
  caller_effects (trace (iteration tid env s)) = caller_effects (trace s).
Proof.
  destruct (iteration_cases tid env s) as [_ C].
  destruct C; rewrite ?caller_effects_stats_check; cbn [trace];
    rewrite ?caller_effects_app; cbn; rewrite ?app_nil_r; try reflexivity.
  destruct (10 <=? _); cbn [trace]; rewrite ?caller_effects_app; cbn;
    rewrite ?app_nil_r; reflexivity.
Qed.

(** A thread step writes nothing on behalf of the caller, starts no thread
    and keeps every thread with its forwarder. *)
Lemma thread_step_frame tid env w :
  caller_effects (wtrace (thread_step tid env w)) = caller_effects (wtrace w) /\
  (threads (thread_step tid env w) = threads w \/
   exists ts, threads (thread_step tid env w) = set_thread_state tid ts w).
Proof.
  unfold thread_step.
  destruct (threads w !! tid) as [[i ts] |]; [| auto].
  destruct (forwarders w !! i) as [f |]; [| auto].
  destruct ts as [| c l | | e]; [| | auto | auto].
  - unfold forward_loop_prologue.
    destruct (connection_result env); cbn [wtrace threads].
    + eauto.
    + rewrite caller_effects_app. cbn. rewrite app_nil_r. eauto.
  - destruct (running f).
    + destruct (iteration_cases tid env (mkLoop f c l (wtrace w))) as [E _].
      rewrite E. cbn [wtrace threads].
      rewrite caller_effects_iteration. eauto.
    + cbn [wtrace threads]. rewrite caller_effects_app. cbn.
      rewrite app_nil_r. eauto.
Qed.

Lemma set_thread_state_owner tid ts w j i ts0 :
  threads w !! j = Some (i, ts0) ->
  exists ts', set_thread_state tid ts w !! j = Some (i, ts').
Proof.
  intros H. unfold set_thread_state. rewrite list_lookup_alter.
  destruct (decide (tid = j)) as [-> | N]; rewrite H;
    [eexists; reflexivity | eauto].
Qed.

Lemma thread_step_owner tid env w j i ts0 :
  threads w !! j = Some (i, ts0) ->
  exists ts', threads (thread_step tid env w) !! j = Some (i, ts').
Proof.
  intros H. destruct (thread_step_frame tid env w) as [_ [E | [ts E]]];
    rewrite E; [eauto |].
  eapply set_thread_state_owner, H.
Qed.

Lemma thread_step_length tid env w :
  length (threads (thread_step tid env w)) = length (threads w).
Proof.
  destruct (thread_step_frame tid env w) as [_ [E | [ts E]]]; rewrite E;
    [reflexivity |].
  unfold set_thread_state. apply length_alter.
Qed.

(** A connection that cannot be opened ends the thread before its first
    log record: the world only remembers the crash.  The object keeps
    [running = True]. *)
Lemma connection_failure_silent tid env w i f e :
  threads w !! tid = Some (i, TCreated) ->
  forwarders w !! i = Some f ->
  connection_result env = Some e ->
  thread_step tid env w =
  mkWorld (forwarders w) (set_thread_state tid (TCrashed e) w) (wtrace w).
Proof.
  intros Ht Hf Hc. unfold thread_step, forward_loop_prologue.
  rewrite Ht, Hf, Hc. reflexivity.
Qed.

Lemma started_upto_thread_step cfg sched k tid env w :
  started_upto cfg sched k w ->
  started_upto cfg sched k (thread_step tid env w).
Proof.
  intros (Hn & Hlen & Hobj & Hthr & Htr).
  pose proof (step_objs (EvThread tid env) w) as F2. cbn [step] in F2.
  split; [| split; [| split; [| split]]].
  - rewrite <- (Forall2_length _ _ _ F2). exact Hn.
  - rewrite thread_step_length. exact Hlen.
  - intros j c Hc. destruct (Hobj j c Hc) as (f & Hf & Hb & Hl).
    destruct (Forall2_lookup_l _ _ _ _ _ F2 Hf) as (g & Hg & Hs).
    apply thread_obj_step_lifecycle in Hs.
    destruct Hs as (S1 & S2 & S3 & S4 & S5 & S6 & S7).
    exists g. split; [exact Hg |]. unfold built_from in *.
    rewrite S1, S2, S3, S4, S5, S6, S7. split; assumption.
  - intros j Hj. destruct (Hthr j Hj) as [ts Hts].
    eapply thread_step_owner, Hts.
  - destruct (thread_step_frame tid env w) as [E _]. rewrite E. exact Htr.
Qed.

Lemma started_upto_run_threads cfg sched k during :
  forall w,
    started_upto cfg sched k w ->
    started_upto cfg sched k (run_threads during w).
Proof.
  induction during as [| [tid env] during IH]; intros w H; [exact H |].
  apply IH. apply started_upto_thread_step, H.
Qed.

Lemma started_upto_next cfg sched k c w :
  cfg !! k = Some c ->
  started_upto cfg sched k w ->
  started_upto cfg sched (S k)
    (sleep 1 (snd (sched k)) (start k (fst (sched k)) w)).
Proof.
  intros Hc (Hn & Hlen & Hobj & Hthr & Htr).
  unfold sleep. apply started_upto_run_threads.
  destruct (Hobj k c Hc) as (f & Hf & Hb & Hr).
  rewrite Nat.ltb_irrefl in Hr.
  rewrite (start_fresh k (fst (sched k)) w f Hf Hr).
  unfold emit_w, started_upto. cbn [forwarders threads wtrace].
  split; [| split; [| split; [| split]]].
  - rewrite length_insert. exact Hn.
  - rewrite length_app, Hlen. cbn. lia.
  - intros j c' Hc'. destruct (Nat.eq_dec j k) as [-> | N].
    + rewrite Hc in Hc'. injection Hc' as <-.
      eexists. split.
      * apply list_lookup_insert_eq. eapply lookup_lt_Some, Hf.
      * rewrite Hlen. split; [exact Hb |].
        assert (L : (k <? S k)%nat = true) by (apply Nat.ltb_lt; lia).
        rewrite L. repeat split.
    + destruct (Hobj j c' Hc') as (g & Hg & Hgb & Hgl).
      exists g. split.
      * rewrite list_lookup_insert_ne by auto. exact Hg.
      * split; [exact Hgb |].
        destruct (j <? k)%nat eqn:E1.
        -- apply Nat.ltb_lt in E1.
           assert (L : (j <? S k)%nat = true) by (apply Nat.ltb_lt; lia).
           rewrite L. exact Hgl.
        -- apply Nat.ltb_ge in E1.
           assert (L : (j <? S k)%nat = false) by (apply Nat.ltb_ge; lia).
           rewrite L. exact Hgl.
  - intros j Hj. destruct (Nat.eq_dec j k) as [-> | N].
    + exists TCreated. rewrite lookup_app_r by lia.
      rewrite Hlen, Nat.sub_diag. reflexivity.
    + destruct (Hthr j ltac:(lia)) as [ts Hts].
      exists ts. apply lookup_app_l_Some, Hts.
  - rewrite !caller_effects_app, Htr.
    rewrite (take_S_r cfg k c Hc), imap_app, concat_app.
    assert (Lk : length (take k cfg) = k).
    { apply length_take_le. apply lookup_lt_Some in Hc. lia. }
    rewrite Lk. destruct Hb as (B1 & B2 & B3 & B4).
    rewrite Hlen, B1, B2, B3, B4. cbn.
    rewrite Nat.add_0_r, <- app_assoc. reflexivity.
Qed.

Lemma started_upto_fold cfg sched k :
  (k <= length cfg)%nat ->
  started_upto cfg sched k
    (foldl (fun w i => sleep 1 (snd (sched i)) (start i (fst (sched i)) w))
           (emit_w [ELog INFO MsgStartingAll] (manager_init cfg))
           (seq 0 k)).
Proof.
  induction k as [| k IH]; intros Hk.
  - cbn [seq foldl]. split; [| split; [| split; [| split]]].
    + unfold manager_init, emit_w. cbn [forwarders]. apply length_map.
    + reflexivity.
    + intros j c Hc. unfold manager_init, emit_w. cbn [forwarders].
      rewrite list_lookup_fmap, Hc. cbn.
      eexists. split; [reflexivity |]. repeat split.
    + intros j Hj. lia.
    + reflexivity.
  - rewrite seq_S, foldl_app. cbn [foldl Nat.add].
    destruct (lookup_lt_is_Some_2 cfg k ltac:(lia)) as [c Hc].
    apply (started_upto_next cfg sched k c); [exact Hc |]. apply IH. lia.
Qed.

(** C10 as the code has it: [start_all] calls [start()] on every forwarder
    in configuration order and sleeps one second after each call; whatever
    the forwarder threads do meanwhile, at the end every forwarder is
    flagged running and has its own thread, and the caller has done exactly
    the announced starts and sleeps, in order.  The connection is opened by
    the forwarder's own thread, outside any [try]: when it fails, that thread
    ends at once, no log record is written and the object stays flagged
    running; the caller never sees the failure, so the other forwarders are
    started all the same. *)
Theorem start_all_staggered (cfg : list Config)
    (sched : nat -> Q * list (nat * Env)) :
  let w := start_all sched (manager_init cfg) in
  (forall j c, cfg !! j = Some c ->
     exists f ts,
       forwarders w !! j = Some f /\ built_from c f /\
       running f = true /\ thread f = Some j /\
       start_time f = Some (fst (sched j)) /\
       threads w !! j = Some (j, ts)) /\
  length (threads w) = length cfg /\
  caller_effects (wtrace w) =
    (ELog INFO MsgStartingAll :: concat (imap start_effects cfg)) ++
    [ELog INFO (MsgStartedAll (length cfg))] /\
  (forall tid env w0 i f e,
     threads w0 !! tid = Some (i, TCreated) ->
     forwarders w0 !! i = Some f ->
     connection_result env = Some e ->
     thread_step tid env w0 =
     mkWorld (forwarders w0) (set_thread_state tid (TCrashed e) w0)
             (wtrace w0)).
Proof.
  cbv zeta. unfold start_all.
  assert (Ln : length (forwarders (manager_init cfg)) = length cfg)
    by (unfold manager_init; cbn [forwarders]; apply length_map).
  rewrite Ln.
  pose proof (started_upto_fold cfg sched (length cfg) (Nat.le_refl _)) as H.
  set (w2 := foldl _ _ _) in *. clearbody w2.
  destruct H as (Hn & Hlen & Hobj & Hthr & Htr).
  unfold emit_w. cbn [forwarders threads wtrace].
  split; [| split; [| split]].
  - intros j c Hc. destruct (Hobj j c Hc) as (f & Hf & Hb & Hl).
    assert (Hj : (j < length cfg)%nat) by (eapply lookup_lt_Some, Hc).
    assert (L : (j <? length cfg)%nat = true) by (apply Nat.ltb_lt, Hj).
    rewrite L in Hl. destruct Hl as (H1 & H2 & H3).
    destruct (Hthr j Hj) as [ts Hts].
    exists f, ts. split; [exact Hf |]. split; [exact Hb |].
    repeat split; assumption.
  - exact Hlen.
  - rewrite caller_effects_app, Htr, Hn.
    rewrite take_ge by lia. reflexivity.
  - intros tid env w0 i f e. apply connection_failure_silent.
Qed.

(* ------------------------------------------------------------------ *)
(** ** Leaving the loop *)

(** Once [stop()] has cleared the flag, the next step of a looping thread
    is its exit: it closes the socket and touches no forwarder object; an
    exited thread does nothing more. *)
Lemma thread_step_after_stop tid env w i c l f :
  threads w !! tid = Some (i, TLooping c l) ->
  forwarders w !! i = Some f ->
  running f = false ->
  thread_step tid env w =
    mkWorld (forwarders w) (set_thread_state tid TExited w)
            (wtrace w ++ [ESockClose tid]) /\
  forall env',
    thread_step tid env' (thread_step tid env w) = thread_step tid env w.
Proof.
  intros Ht Hf Hr.
  assert (E : thread_step tid env w =
              mkWorld (forwarders w) (set_thread_state tid TExited w)
                      (wtrace w ++ [ESockClose tid])).
  { unfold thread_step. rewrite Ht, Hf, Hr. reflexivity. }
  split; [exact E |].
  intros env'. rewrite E. unfold thread_step at 1. cbn [threads forwarders].
  rewrite (set_thread_state_lookup tid TExited w i _ Ht), Hf. reflexivity.
Qed.

(* ------------------------------------------------------------------ *)
(** * Counterexamples *)

(** C1, counterexample: forwarder 1 of [main] is started, connects, and
    receives one frame from system 1 whose [sendto] raises: the frame is
    counted as received and as nothing else, so 1 = 0 + 0 would have to
    hold. *)
Lemma counter_equation_fails_on_failed_send :
  let w := run [EvStart 0 100; EvThread 0 (env_connect 100);
                EvThread 0 (env_send_fails (heartbeat 1) 101)]
               (manager_init main_config) in
  (counters <$> forwarders w !! 0%nat) = Some (1, 0, 0, 0) /\
  ~ (forall f, forwarders w !! 0%nat = Some f ->
       packets_received f = packets_forwarded f + packets_filtered f).
Proof.
  cbv zeta. split; [vm_compute; reflexivity |].
  intros H.
  destruct (forwarders _ !! 0%nat) as [f |] eqn:E; [| vm_compute in E; discriminate E].
  specialize (H f eq_refl).
  vm_compute in E. injection E as <-. vm_compute in H. discriminate H.
Qed.

(** C2, counterexample: forwarder 2 of [main] receives three frames from
    system 2, and the send of the second raises.  Two datagrams are put on
    the wire, not the three of the matching subsequence, and
    [packets_forwarded] is 2: the frame whose send raised is lost. *)
Lemma matching_frame_lost_on_failed_send :
  let s' := forward_loop 0 lossy_schedule drone2_looping in
  let ok := List.filter (matching 2) (frames lossy_schedule) in
  running (self drone2_looping) = true /\
  expected_sysid (self drone2_looping) = 2 /\
  ok = [heartbeat 2; attitude 2; attitude 2] /\
  sent (trace s') =
    [(get_msgbuf (heartbeat 2), 14551); (get_msgbuf (attitude 2), 14551)] /\
  sent (trace s') <> map (fun m => (get_msgbuf m, 14551)) ok /\
  packets_forwarded (self s') = 2 /\
  packets_forwarded (self s') <> Z.of_nat (length ok).
Proof.
  cbv zeta. repeat split; try (vm_compute; reflexivity);
    vm_compute; intros H; discriminate H.
Qed.

(** C7, counterexample: forwarder 1 of [main] is started, relays a frame,
    is stopped and its thread leaves the loop; a second [start()] on the
    same object puts it back to running, with a second thread and with the
    counters of the first run. *)
Lemma stopped_forwarder_runs_again :
  let stopped := run [EvStart 0 100; EvThread 0 (env_connect 100);
                      EvThread 0 (env_frame (heartbeat 1) 101);
                      EvStop 0; EvThread 0 (env_timeout 102)]
                     (manager_init main_config) in
  let again := step (EvStart 0 200) stopped in
  (running <$> forwarders stopped !! 0%nat) = Some false /\
  threads stopped = [(0%nat, TExited)] /\
  (running <$> forwarders again !! 0%nat) = Some true /\
  threads again = [(0%nat, TExited); (0%nat, TCreated)] /\
  (counters <$> forwarders again !! 0%nat) = Some (1, 1, 0, 4).
Proof. cbv zeta. repeat split; vm_compute; reflexivity. Qed.

(** C8, counterexample: the last report was at time 100 and the receive
    times out at time 112: twelve seconds have passed and the iteration
    writes nothing. *)
Lemma no_stats_line_on_timeout :
  let env := env_timeout 112 in
  (10 <= time_loop env - last_stats_time drone2_looping)%Q /\
  running (self drone2_looping) = true /\
  trace (iteration 0 env drone2_looping) = [] /\
  stats_logged (trace (iteration 0 env drone2_looping)) = 0%nat.
Proof.
  cbv zeta. split; [| repeat split; vm_compute; reflexivity].
  apply Qle_bool_iff. vm_compute. reflexivity.
Qed.

(** C10, counterexample: in [start_all] on the configuration of [main],
    the connection of the first forwarder fails during the sleep that
    follows its start.  Its thread is dead, the other two loop, no record
    of the failure is in the log, and the first forwarder is still flagged
    running. *)
Lemma failed_start_is_not_logged :
  let sched := fun i : nat =>
    (100%Q, [(i, if (i =? 0)%nat then env_connect_fails
                 else env_connect 100)]) in
  let w := start_all sched (manager_init main_config) in
  threads w =
    [(0%nat, TCrashed (OSError "Address already in use"));
     (1%nat, TLooping 0 100); (2%nat, TLooping 0 100)] /\
  existsb is_failure_record (wtrace w) = false /\
  (running <$> forwarders w !! 0%nat) = Some true.
Proof. cbv zeta. repeat split; vm_compute; reflexivity. Qed.

(* ------------------------------------------------------------------ *)
(** * The theorems on concrete runs *)

Lemma counters_account_witness :
  forwarders (run two_frames (manager_init main_config)) !! 0%nat
    = Some drone1_after_two_frames /\
  forallb no_failed_send two_frames = true /\
  packets_forwarded drone1_after_two_frames
    + packets_filtered drone1_after_two_frames
    <= packets_received drone1_after_two_frames /\
  packets_received drone1_after_two_frames
    = packets_forwarded drone1_after_two_frames
      + packets_filtered drone1_after_two_frames.
Proof.
  assert (H : forwarders (run two_frames (manager_init main_config)) !! 0%nat
              = Some drone1_after_two_frames)
    by (vm_compute; reflexivity).
  destruct (counters_account main_config two_frames 0 _ H) as (A & B & _).
  split; [exact H |]. split; [reflexivity |].
  split; [exact A | exact (B eq_refl)].
Defined.

Lemma relay_matching_subsequence_witness :
  running (self drone2_looping) = true /\
  forallb (send_succeeds 2) scenario_A = true /\
  length (frames scenario_A) = 100%nat /\
  length (List.filter (matching 2) (frames scenario_A)) = 60%nat /\
  sent (trace (forward_loop 0 scenario_A drone2_looping)) =
    map (fun m => (get_msgbuf m, 14551))
        (List.filter (matching 2) (frames scenario_A)) /\
  packets_forwarded (self (forward_loop 0 scenario_A drone2_looping)) = 60 /\
  packets_filtered (self (forward_loop 0 scenario_A drone2_looping)) = 40 /\
  bytes_forwarded (self (forward_loop 0 scenario_A drone2_looping)) =
    total_len (List.filter (matching 2) (frames scenario_A)).
Proof.
  destruct (relay_matching_subsequence 0 scenario_A drone2_looping
              eq_refl eq_refl) as [(S1 & _) A].
  destruct (A eq_refl eq_refl eq_refl eq_refl eq_refl) as (_ & A2 & A3 & A4).
  split; [reflexivity |]. split; [reflexivity |].
  split; [reflexivity |]. split; [reflexivity |].
  split; [exact S1 |]. split; [exact A2 |]. split; [exact A3 | exact A4].
Defined.

Lemma derived_metrics_zero_witness :
  let f := drone1_started in
  packets_received f <= 0 /\
  (to_Q (duration 100 f) <= 0)%Q /\
  exists st,
    get_stats 100 f = (inr st, f) /\
    stats_filter_percentage st = PyInt 0 /\
    stats_forward_rate_hz st = PyInt 0 /\
    stats_bandwidth_kbps st = PyInt 0.
Proof.
  cbv zeta.
  assert (H1 : packets_received drone1_started <= 0) by (cbn; lia).
  assert (H2 : (to_Q (duration 100 drone1_started) <= 0)%Q)
    by (apply Qle_bool_iff; reflexivity).
  split; [exact H1 |]. split; [exact H2 |].
  destruct (derived_metrics_zero 100 drone1_started) as (st & E & A & B & _).
  exists st. split; [exact E |]. split; [exact (A H1) |]. exact (B H2).
Defined.

Lemma silence_warning_witness :
  length twelve_timeouts = 12%nat /\
  Forall (fun env => recv_result env = RecvNone) twelve_timeouts /\
  trace (forward_loop 0 twelve_timeouts drone2_looping) =
    [ELog WARNING (MsgNoData 2 10)] /\
  running (self (forward_loop 0 twelve_timeouts drone2_looping)) = true /\
  consecutive_timeouts (forward_loop 0 twelve_timeouts drone2_looping) = 2.
Proof.
  assert (F : Forall (fun env => recv_result env = RecvNone) twelve_timeouts)
    by (repeat constructor).
  destruct (silence_warning 0) as (_ & _ & _ & S).
  destruct (S twelve_timeouts drone2_looping eq_refl F eq_refl eq_refl)
    as (S1 & S2 & S3).
  split; [reflexivity |]. split; [exact F |]. split; [exact S1 |].
  split; [rewrite S2; reflexivity | exact S3].
Defined.

Lemma loop_survives_exceptions_witness :
  let env := env_recv_fails 101 in
  let e := OSError "Connection refused" in
  recv_result env = RecvRaise e /\
  trace (iteration 0 env drone2_looping) =
    [ELog ERROR (MsgForwardError 2 e); ESleep (Some 0%nat) (1 # 10)] /\
  iteration_escapes 0 env drone2_looping = None /\
  running (self (iteration 0 env drone2_looping)) = true /\
  forward_loop 0 [env; env_frame (heartbeat 2) 102] drone2_looping =
  forward_loop 0 [env_frame (heartbeat 2) 102] (iteration 0 env drone2_looping).
Proof.
  cbv zeta.
  destruct (loop_survives_exceptions 0 (env_recv_fails 101) drone2_looping
              (OSError "Connection refused") (or_introl eq_refl))
    as (A & B & C & D & _).
  split; [reflexivity |]. split; [exact A |]. split; [apply B |].
  split; [exact C | exact (D _ eq_refl)].
Defined.

Lemma restart_in_place_keeps_counters_witness :
  let w := run two_frames (manager_init main_config) in
  forwarders w !! 0%nat = Some drone1_after_two_frames /\
  exists g',
    forwarders (start 0 200 (stop 0 w)) !! 0%nat = Some g' /\
    running g' = true /\
    start_time g' = Some 200%Q /\
    packets_received g' = 2 /\
    packets_forwarded g' = 1 /\
    packets_filtered g' = 1.
Proof.
  cbv zeta.
  assert (H : forwarders (run two_frames (manager_init main_config)) !! 0%nat
              = Some drone1_after_two_frames)
    by (vm_compute; reflexivity).
  split; [exact H |].
  destruct restart_in_place_keeps_counters as (R & _ & _).
  destruct (R 0%nat 200%Q _ _ H)
    as (g & g' & _ & _ & G & G1 & G2 & _ & G3 & G4 & G5 & _).
  exists g'. repeat split; assumption.
Defined.

Lemma stats_gated_by_timestamp_witness :
  let env := env_frame (heartbeat 2) 111 in
  reaches_stats_check env drone2_looping = true /\
  (10 <= time_loop env - last_stats_time drone2_looping)%Q /\
  last_stats_time (iteration 0 env drone2_looping) = 111%Q /\
  stats_logged (trace (iteration 0 env drone2_looping)) = 1%nat.
Proof.
  cbv zeta.
  assert (H : (10 <= time_loop (env_frame (heartbeat 2) 111)
                     - last_stats_time drone2_looping)%Q)
    by (apply Qle_bool_iff; reflexivity).
  destruct (stats_gated_by_timestamp 0 (env_frame (heartbeat 2) 111)
              drone2_looping) as (A & _ & _).
  destruct (A eq_refl H) as [A1 A2].
  split; [reflexivity |]. split; [exact H |]. split; [exact A1 | exact A2].
Defined.

Lemma start_idempotent_witness :
  let w := start 0 100 (manager_init main_config) in
  forwarders w !! 0%nat = Some drone1_started /\
  running drone1_started = true /\
  start 0 200 w = w.
Proof.
  cbv zeta.
  assert (H : forwarders (start 0 100 (manager_init main_config)) !! 0%nat
              = Some drone1_started) by reflexivity.
  split; [exact H |]. split; [reflexivity |].
  exact (proj1 (start_idempotent 0 200 _ _ H) eq_refl).
Defined.

Lemma start_all_staggered_witness :
  let sched := fun i : nat =>
    (100%Q, [(i, if (i =? 0)%nat then env_connect_fails
                 else env_connect 100)]) in
  let w := start_all sched (manager_init main_config) in
  main_config !! 1%nat = Some (mkConfig 2 14541 14551 2) /\
  (exists f ts,
     forwarders w !! 1%nat = Some f /\ running f = true /\
     thread f = Some 1%nat /\ threads w !! 1%nat = Some (1%nat, ts)) /\
  caller_effects (wtrace w) =
    [ELog INFO MsgStartingAll;
     EThreadStart 0; ELog INFO (MsgForwarderStarted 1 14540 14550 1);
     ESleep None 1;
     EThreadStart 1; ELog INFO (MsgForwarderStarted 2 14541 14551 2);
     ESleep None 1;
     EThreadStart 2; ELog INFO (MsgForwarderStarted 3 14542 14552 3);
     ESleep None 1;
     ELog INFO (MsgStartedAll 3)].
Proof.
  cbv zeta.
  destruct (start_all_staggered main_config
              (fun i : nat =>
                 (100%Q, [(i, if (i =? 0)%nat then env_connect_fails
                              else env_connect 100)])))
    as (A & _ & C & _).
  split; [reflexivity |]. split.
  - destruct (A 1%nat _ eq_refl) as (f & ts & F1 & _ & F2 & F3 & _ & F4).
    exists f, ts. repeat split; assumption.
  - exact C.
Defined.

(* ------------------------------------------------------------------ *)
(** * More properties of the module *)

(** ** The loop on any schedule *)

Lemma senders_cons m ms :
  senders (m :: ms) = {[get_srcSystem m]} ∪ senders ms.
Proof. reflexivity. Qed.

Lemma union_move_in (x : Z) (A B : gset Z) :
  ({[x]} ∪ A) ∪ B = A ∪ ({[x]} ∪ B).
Proof.
  apply set_eq. intros y. rewrite !elem_of_union. tauto.
Qed.

Lemma union_nothing (A : gset Z) : A = A ∪ senders [].
Proof.
  apply set_eq. intros y. unfold senders. cbn.
  rewrite elem_of_union, elem_of_empty. tauto.
Qed.

(** X1: whatever the outside world does (timeouts, failed receives, failed
    sends), every frame that [recv_match] returns is counted as received
    and its sender is recorded, whether the frame is then relayed, dropped
    or lost in a failed send; nothing else is counted or recorded. *)
Theorem every_frame_counted_and_recorded (tid : nat) (envs : list Env)
    (s : loop_state) :
  running (self s) = true ->
  let s' := forward_loop tid envs s in
  packets_received (self s') =
    packets_received (self s) + Z.of_nat (length (frames envs)) /\
  system_ids_seen (self s') =
    system_ids_seen (self s) ∪ senders (frames envs).
Proof.
  revert s. induction envs as [| env envs IH]; intros s Hrun; cbv zeta.
  - cbn [forward_loop frames flat_map length].
    split; [lia | apply union_nothing].
  - rewrite forward_loop_cons by exact Hrun.
    pose proof (iteration_running tid env s) as Hrun'.
    rewrite Hrun in Hrun'.
    destruct (IH (iteration tid env s) Hrun') as [I1 I2].
    rewrite I1, I2. clear I1 I2 IH.
    destruct (iteration_cases tid env s) as [_ C].
    destruct C as [R | e R | m R Ne | m R Eq Snd | m e R Eq Snd];
      unfold frames; cbn [flat_map]; rewrite R; fold (frames envs);
      rewrite ?stats_check_self; cbn [app length].
    + destruct (10 <=? _); cbn [self]; (split; [lia | reflexivity]).
    + cbn [self]. split; [lia | reflexivity].
    + rewrite senders_cons. cbn. split; [lia | apply union_move_in].
    + rewrite senders_cons. cbn. split; [lia | apply union_move_in].
    + rewrite senders_cons. cbn. split; [lia | apply union_move_in].
Qed.

Lemma stats_check_trace env s :
  trace (stats_check env s) =
  trace s ++ (if Qle_bool 10 (time_loop env - last_stats_time s)
              then stats_lines env (self s) else []).
Proof.
  unfold stats_check. destruct (Qle_bool _ _); [reflexivity |].
  rewrite app_nil_r. reflexivity.
Qed.

Lemma datagram_bytes_cons d ds :
  datagram_bytes (d :: ds) = len (fst d) + datagram_bytes ds.
Proof. reflexivity. Qed.

(** X2: on any schedule, failed sends included, the datagrams put on the
    wire are a subsequence, in order and byte for byte, of the frames from
    the expected system, all to the forwarder's own broadcast port;
    [packets_forwarded] grows by exactly their number and [bytes_forwarded]
    by exactly their total length. *)
Theorem forwarded_counters_match_the_wire (tid : nat) (envs : list Env)
    (s : loop_state) :
  running (self s) = true ->
  let s' := forward_loop tid envs s in
  exists new,
    sent (trace s') = sent (trace s) ++ new /\
    packets_forwarded (self s') =
      packets_forwarded (self s) + Z.of_nat (length new) /\
    bytes_forwarded (self s') = bytes_forwarded (self s) + datagram_bytes new /\
    new `sublist_of`
      map (fun m => (get_msgbuf m, broadcast_port (self s)))
          (List.filter (matching (expected_sysid (self s))) (frames envs)).
Proof.
  revert s. induction envs as [| env envs IH]; intros s Hrun; cbv zeta.
  - exists []. cbn. rewrite app_nil_r. repeat split; try lia. constructor.
  - rewrite forward_loop_cons by exact Hrun.
    pose proof (iteration_running tid env s) as Hrun'.
    rewrite Hrun in Hrun'.
    destruct (IH (iteration tid env s) Hrun') as (new & I1 & I2 & I3 & I4).
    destruct (iteration_config tid env s) as (Hid & Hport & _).
    rewrite Hid, Hport in I4. rewrite I1, I2, I3. clear I1 I2 I3 IH.
    destruct (iteration_cases tid env s) as [_ C].
    destruct C as [R | e R | m R Ne | m R Eq Snd | m e R Eq Snd];
      unfold frames; cbn [flat_map]; rewrite R; fold (frames envs);
      rewrite ?sent_stats_check, ?stats_check_self; cbn [app].
    + exists new. destruct (10 <=? _); cbn [self trace];
        rewrite ?sent_app; cbn [sent flat_map app]; rewrite ?app_nil_r;
        repeat split; assumption || lia.
    + exists new. cbn [self trace]. rewrite sent_app.
      cbn [sent error_effects flat_map app]. rewrite app_nil_r.
      repeat split; assumption || lia.
    + assert (M : matching (expected_sysid (self s)) m = false)
        by (apply Z.eqb_neq; exact Ne).
      exists new. cbn [List.filter]. rewrite M. cbn [self trace].
      repeat split; try assumption; cbn; lia.
    + assert (M : matching (expected_sysid (self s)) m = true)
        by (apply Z.eqb_eq; exact Eq).
      exists ((get_msgbuf m, broadcast_port (self s)) :: new).
      cbn [List.filter]. rewrite M. cbn [self trace map].
      rewrite sent_app. cbn [sent flat_map app]. rewrite <- app_assoc.
      rewrite datagram_bytes_cons. cbn [app fst length].
      repeat split; try (cbn; lia). apply sublist_skip, I4.
    + assert (M : matching (expected_sysid (self s)) m = true)
        by (apply Z.eqb_eq; exact Eq).
      exists new. cbn [List.filter]. rewrite M. cbn [self trace map].
      rewrite sent_app. cbn [sent error_effects flat_map app].
      rewrite app_nil_r.
      repeat split; try (cbn; lia). apply sublist_cons, I4.
Qed.

Lemma says_10_stats_lines env f : forallb nodata_says_10 (stats_lines env f) = true.
Proof. unfold stats_lines. destruct (py_pos _); reflexivity. Qed.

Lemma forallb_app_true {A} (p : A -> bool) (l1 l2 : list A) :
  forallb p l1 = true -> forallb p l2 = true -> forallb p (l1 ++ l2) = true.
Proof. intros H1 H2. rewrite forallb_app, H1, H2. reflexivity. Qed.

(** What one iteration does to the timeout counter and to the log of
    silence warnings. *)
Lemma iteration_timeout_counter tid env s :
  0 <= consecutive_timeouts s < 10 ->
  0 <= consecutive_timeouts (iteration tid env s) < 10 /\
  exists new,
    trace (iteration tid env s) = trace s ++ new /\
    forallb nodata_says_10 new = true.
Proof.
  intros Hc. destruct (iteration_cases tid env s) as [_ C].
  destruct C as [R | e R | m R Ne | m R Eq Snd | m e R Eq Snd];
    rewrite ?stats_check_timeouts, ?stats_check_trace;
    cbn [consecutive_timeouts trace self].
  - destruct (10 <=? consecutive_timeouts s + 1) eqn:E;
      cbn [consecutive_timeouts trace].
    + apply Z.leb_le in E. split; [lia |]. eexists. split; [reflexivity |].
      cbn. replace (consecutive_timeouts s + 1) with 10 by lia. reflexivity.
    + apply Z.leb_gt in E. split; [lia |]. exists [].
      rewrite app_nil_r. split; reflexivity.
  - split; [lia |]. eexists. split; reflexivity.
  - split; [lia |]. eexists. split; [reflexivity |].
    destruct (Qle_bool _ _); [apply says_10_stats_lines | reflexivity].
  - split; [lia |]. rewrite <- app_assoc. eexists. split; [reflexivity |].
    cbn [app forallb nodata_says_10 andb].
    destruct (Qle_bool _ _); [apply says_10_stats_lines | reflexivity].
  - split; [lia |]. eexists. split; reflexivity.
Qed.

(** X3: along any schedule the consecutive-timeout counter stays between 0
    and 9, and every silence warning the loop logs reports exactly 10
    seconds. *)
Theorem timeout_counter_stays_below_ten (tid : nat) (envs : list Env)
    (s : loop_state) :
  0 <= consecutive_timeouts s < 10 ->
  let s' := forward_loop tid envs s in
  0 <= consecutive_timeouts s' < 10 /\
  exists new,
    trace s' = trace s ++ new /\ forallb nodata_says_10 new = true.
Proof.
  revert s. induction envs as [| env envs IH]; intros s Hc; cbv zeta.
  - cbn. split; [exact Hc |]. exists []. rewrite app_nil_r. auto.
  - cbn [forward_loop]. destruct (running (self s)).
    + destruct (iteration_timeout_counter tid env s Hc) as (Hc' & n1 & T1 & F1).
      destruct (IH (iteration tid env s) Hc') as (Hc'' & n2 & T2 & F2).
      split; [exact Hc'' |]. exists (n1 ++ n2).
      rewrite T2, T1, <- app_assoc. split; [reflexivity |].
      apply forallb_app_true; assumption.
    + split; [exact Hc |]. exists []. rewrite app_nil_r. auto.
Qed.

(* ------------------------------------------------------------------ *)
(** ** Reports *)

Lemma get_stats_run (now : Q) (f : Forwarder) :
  get_stats now f = (inr (stats_value now f), f).
Proof.
  unfold get_stats. unfold bind at 1. unfold gets at 1, id.
  unfold bind at 1. rewrite filter_percentage_run.
  unfold bind at 1. rewrite forward_rate_hz_run.
  unfold bind at 1. rewrite bandwidth_kbps_run.
  reflexivity.
Qed.

Lemma strictly_sorted (l : list Z) :
  StronglySorted Z.le l -> NoDup l -> StronglySorted Z.lt l.
Proof.
  induction 1 as [| x l Hs IH Hx]; intros Hnd; [constructor |].
  apply NoDup_cons in Hnd as [Hnin Hnd].
  constructor; [exact (IH Hnd) |].
  apply Forall_forall. intros y Hy.
  assert (x <= y) by (eapply Forall_forall in Hx; eauto).
  assert (x <> y) by (intros ->; exact (Hnin Hy)).
  lia.
Qed.

(** X4: the [system_ids_seen] entry of the dictionary of [get_stats] lists
    the recorded senders in strictly increasing order: each one once, and
    nothing else. *)
Theorem reported_ids_sorted (now : Q) (f : Forwarder) :
  exists st,
    get_stats now f = (inr st, f) /\
    StronglySorted Z.lt (stats_system_ids_seen st) /\
    forall x, x ∈ stats_system_ids_seen st <-> x ∈ system_ids_seen f.
Proof.
  exists (stats_value now f). split; [apply get_stats_run |].
  cbn [stats_value stats_system_ids_seen]. unfold sorted_ids.
  split.
  - apply strictly_sorted.
    + apply StronglySorted_merge_sort; apply _.
    + rewrite merge_sort_Permutation. apply NoDup_elements.
  - intros x. rewrite merge_sort_Permutation. apply elem_of_elements.
Qed.

Lemma Qdiv_nonneg (a b : Q) : (0 <= a -> 0 < b -> 0 <= a / b)%Q.
Proof.
  intros Ha Hb. apply Qle_shift_div_l; [exact Hb |].
  rewrite Qmult_0_l. exact Ha.
Qed.

Lemma inject_Z_nonneg (z : Z) : 0 <= z -> (0 <= inject_Z z)%Q.
Proof. intros H. change 0%Q with (inject_Z 0). rewrite <- Zle_Qle. exact H. Qed.

Lemma inject_Z_pos (z : Z) : 0 < z -> (0 < inject_Z z)%Q.
Proof. intros H. change 0%Q with (inject_Z 0). rewrite <- Zlt_Qlt. exact H. Qed.

Lemma ratio_in_unit (a b : Z) :
  0 <= a <= b -> 0 < b -> (0 <= inject_Z a / inject_Z b <= 1)%Q.
Proof.
  intros [Ha Hab] Hb. split.
  - apply Qdiv_nonneg; [apply inject_Z_nonneg, Ha | apply inject_Z_pos, Hb].
  - apply Qle_shift_div_r; [apply inject_Z_pos, Hb |].
    rewrite Qmult_1_l, <- Zle_Qle. exact Hab.
Qed.

Lemma obj_step_counters_sane ev f f' :
  obj_step ev f f' -> counters_sane f -> counters_sane f'.
Proof.
  intros Hs Hf.
  destruct Hs as [ev f | j now tid f Hr | j f | tid env f
                 | tid env f c l tr Hr]; try exact Hf.
  destruct (iteration_counters tid env (mkLoop f c l tr))
    as [E | [(m & E) | [(m & _ & E) | (m & e & _ & E)]]];
    cbv zeta in E; cbn [self] in E; rewrite E;
    unfold counters_sane, count_filtered, count_forwarded, count_received,
      len in *; cbn; lia.
Qed.

Lemma reachable_counters_sane cfg evs i f :
  forwarders (run evs (manager_init cfg)) !! i = Some f -> counters_sane f.
Proof.
  intros Hf.
  assert (H : Forall counters_sane (forwarders (run evs (manager_init cfg)))).
  { apply (run_invariant _ (fun _ => True)).
    - intros ev g g' _. apply obj_step_counters_sane.
    - apply Forall_true. auto.
    - apply init_counters. intros. unfold counters_sane. cbn. lia. }
  exact (Forall_lookup_1 _ _ _ _ H Hf).
Qed.

(** X5: in every state reachable from construction, whenever [get_stats]
    is called, the reported [filter_percentage] lies between 0 and 100 and
    the reported [forward_rate_hz] and [bandwidth_kbps] are not negative. *)
Theorem reported_metrics_in_range (cfg : list Config) (evs : list event)
    (i : nat) (f : Forwarder) (now : Q) :
  forwarders (run evs (manager_init cfg)) !! i = Some f ->
  exists st,
    get_stats now f = (inr st, f) /\
    (0 <= to_Q (stats_filter_percentage st) <= 100)%Q /\
    (0 <= to_Q (stats_forward_rate_hz st))%Q /\
    (0 <= to_Q (stats_bandwidth_kbps st))%Q.
Proof.
  intros Hf. apply reachable_counters_sane in Hf.
  destruct Hf as (H1 & H2 & H3 & H4).
  exists (stats_value now f). split; [apply get_stats_run |].
  cbn [stats_value stats_filter_percentage stats_forward_rate_hz
       stats_bandwidth_kbps].
  split; [| split].
  - unfold filter_pct_value.
    destruct (0 <? packets_received f) eqn:E.
    + apply Z.ltb_lt in E.
      destruct (ratio_in_unit (packets_filtered f) (packets_received f)
                  ltac:(lia) E) as [Q0 Q1].
      unfold py_mul. cbn [to_Q]. split.
      * apply Qmult_le_0_compat; [exact Q0 | apply inject_Z_nonneg; lia].
      * apply Qle_trans with (1 * inject_Z 100)%Q.
        -- apply Qmult_le_compat_r; [exact Q1 | apply inject_Z_nonneg; lia].
        -- rewrite Qmult_1_l. apply Qle_refl.
    + cbn. split; unfold Qle; cbn; lia.
  - destruct (py_pos (duration now f)) eqn:E; [| cbn; apply Qle_refl].
    apply py_pos_spec in E. cbn [to_Q].
    apply Qdiv_nonneg; [apply inject_Z_nonneg, H1 | exact E].
  - destruct (py_pos (duration now f)) eqn:E; [| cbn; apply Qle_refl].
    apply py_pos_spec in E. cbn [to_Q].
    apply Qdiv_nonneg; [| exact E].
    apply Qdiv_nonneg; [apply inject_Z_nonneg; lia | apply inject_Z_pos; lia].
Qed.

Lemma print_block_run (now : Q) (i : nat) (f : Forwarder)
    (fs : list Forwarder) (out : list StatsRow) :
  fs !! i = Some f ->
  print_block now i f (fs, out) = (inr tt, (fs, out ++ [stats_row now f])).
Proof.
  intros Hf. unfold print_block. unfold bind at 1.
  unfold call. rewrite get_stats_run. cbn [fst snd].
  rewrite (list_insert_id fs i f Hf).
  unfold bind. unfold truediv. cbn [to_Q].
  rewrite (inject_Z_nonzero 1024) by lia. reflexivity.
Qed.

(** The loop of [print_stats] from position [length pre] on. *)
Lemma print_rows_run (now : nat -> Q) (l pre : list Forwarder)
    (out : list StatsRow) :
  for_each (fun i f => print_block (now i) i f) (length pre) l
           (pre ++ l, out) =
  (inr tt,
   (pre ++ l,
    out ++ imap (fun j f => stats_row (now (length pre + j)%nat) f) l)).
Proof.
  revert pre out. induction l as [| f l IH]; intros pre out.
  - cbn [for_each imap]. rewrite !app_nil_r. reflexivity.
  - cbn [for_each]. unfold bind.
    rewrite print_block_run
      by (rewrite lookup_app_r by lia; rewrite Nat.sub_diag; reflexivity).
    specialize (IH (pre ++ [f]) (out ++ [stats_row (now (length pre)) f])).
    rewrite length_app, <- !app_assoc in IH. cbn [length app] in IH.
    rewrite Nat.add_1_r in IH. rewrite IH.
    cbn [imap]. rewrite Nat.add_0_r. cbn [app].
    do 3 f_equal. f_equal.
    apply imap_ext. intros j g _. cbn. do 2 f_equal. lia.
Qed.

(** X6: [print_stats] never raises, whatever the state of the forwarders
    (never started, no packet received, zero elapsed time): it prints one
    block per forwarder, in list order, with the dictionary of [get_stats]
    and the forwarded kilobytes, and leaves every forwarder object as it
    was. *)
Theorem print_stats_total (now : nat -> Q) (fs : list Forwarder)
    (out : list StatsRow) :
  print_stats now (fs, out) =
  (inr tt, (fs, out ++ imap (fun j f => stats_row (now j) f) fs)).
Proof.
  unfold print_stats. unfold bind at 1. unfold gets at 1. cbn [fst].
  exact (print_rows_run now fs [] out).
Qed.

(* ------------------------------------------------------------------ *)
(** ** [stop] *)

Lemma stop_at i w f :
  forwarders w !! i = Some f ->
  stop i w =
  mkWorld (<[i := set_running false f]> (forwarders w)) (threads w)
          (wtrace w ++ stop_effects f).
Proof. intros Hf. unfold stop. rewrite Hf. reflexivity. Qed.

(* ------------------------------------------------------------------ *)
(** ** Threads once the flags are cleared *)

Lemma same_counters_refl f : same_counters f f.
Proof. repeat split. Qed.

Lemma same_counters_trans f g h :
  same_counters f g -> same_counters g h -> same_counters f h.
Proof.
  unfold same_counters.
  intros (A1 & A2 & A3 & A4 & A5) (B1 & B2 & B3 & B4 & B5).
  repeat split; congruence.
Qed.

(** A thread step leaves the other threads alone. *)
Lemma thread_step_other tid env w t :
  t <> tid -> threads (thread_step tid env w) !! t = threads w !! t.
Proof.
  intros N. destruct (thread_step_frame tid env w) as [_ [E | [ts E]]];
    rewrite E; [reflexivity |].
  unfold set_thread_state. apply list_lookup_alter_ne. auto.
Qed.

(** A thread step when no forwarder is flagged running. *)
Lemma thread_step_stopped tid env w :
  all_stopped w ->
  all_stopped (thread_step tid env w) /\
  Forall2 same_counters (forwarders w) (forwarders (thread_step tid env w)) /\
  sent (wtrace (thread_step tid env w)) = sent (wtrace w).
Proof.
  intros Hs. unfold all_stopped in *.
  pose proof (step_objs (EvThread tid env) w) as F2. cbn [step] in F2.
  assert (P : Forall2 (fun f f' => same_counters f f' /\ running f' = false)
                (forwarders w) (forwarders (thread_step tid env w))).
  { induction F2 as [| f f' l l' Ho _ IH]; [constructor |].
    apply Forall_cons_1 in Hs as [Hf Hl].
    constructor; [| exact (IH Hl)].
    inversion Ho as [ | | | | tid' env' f0 c l0 tr Hr]; subst.
    - split; [apply same_counters_refl | exact Hf].
    - split; [repeat split | exact Hf].
    - congruence. }
  split; [| split].
  - clear -P. induction P as [| f f' l l' [_ H] _ IH]; constructor; auto.
  - clear -P. induction P as [| f f' l l' [H _] _ IH]; constructor; auto.
  - unfold thread_step.
    destruct (threads w !! tid) as [[i ts] |]; [| reflexivity].
    destruct (forwarders w !! i) as [f |] eqn:Hf; [| reflexivity].
    destruct ts as [| c l | | e]; [| | reflexivity | reflexivity].
    + unfold forward_loop_prologue.
      destruct (connection_result env); cbn [wtrace]; [reflexivity |].
      rewrite sent_app. cbn. apply app_nil_r.
    + rewrite (Forall_lookup_1 _ _ _ _ Hs Hf). cbn [wtrace].
      rewrite sent_app. cbn. apply app_nil_r.
Qed.

Lemma Forall2_same_counters_trans l1 l2 l3 :
  Forall2 same_counters l1 l2 -> Forall2 same_counters l2 l3 ->
  Forall2 same_counters l1 l3.
Proof.
  intros H. revert l3. induction H as [| f g l1 l2 Hfg _ IH]; intros l3 H23.
  - inversion H23. constructor.
  - inversion H23 as [| g' h l2' l3' Hgh Hrest]; subst.
    constructor; [exact (same_counters_trans _ _ _ Hfg Hgh) | auto].
Qed.

Lemma run_threads_stopped sched :
  forall w,
    all_stopped w ->
    all_stopped (run_threads sched w) /\
    Forall2 same_counters (forwarders w) (forwarders (run_threads sched w)) /\
    sent (wtrace (run_threads sched w)) = sent (wtrace w).
Proof.
  induction sched as [| [tid env] sched IH]; intros w Hs.
  - cbn. split; [exact Hs |]. split; [| reflexivity].
    clear. induction (forwarders w); constructor;
      [apply same_counters_refl | assumption].
  - destruct (thread_step_stopped tid env w Hs) as (S1 & S2 & S3).
    destruct (IH (thread_step tid env w) S1) as (I1 & I2 & I3).
    change (run_threads ((tid, env) :: sched) w)
      with (run_threads sched (thread_step tid env w)).
    split; [exact I1 |]. split.
    + exact (Forall2_same_counters_trans _ _ _ S2 I2).
    + rewrite I3. exact S3.
Qed.

Lemma exited_stays sched :
  forall w tid i,
    threads w !! tid = Some (i, TExited) ->
    threads (run_threads sched w) !! tid = Some (i, TExited).
Proof.
  induction sched as [| [t env] sched IH]; intros w tid i H; [exact H |].
  change (run_threads ((t, env) :: sched) w)
    with (run_threads sched (thread_step t env w)).
  apply IH. destruct (Nat.eq_dec t tid) as [-> | N].
  - unfold thread_step. rewrite H.
    destruct (forwarders w !! i); exact H.
  - rewrite thread_step_other by auto. exact H.
Qed.

Lemma looping_thread_exits sched :
  forall w tid i c l,
    all_stopped w ->
    threads w !! tid = Some (i, TLooping c l) ->
    is_Some (forwarders w !! i) ->
    In tid (map fst sched) ->
    threads (run_threads sched w) !! tid = Some (i, TExited).
Proof.
  induction sched as [| [t env] sched IH]; intros w tid i c l Hs Ht Hf Hin;
    [destruct Hin |].
  change (run_threads ((t, env) :: sched) w)
    with (run_threads sched (thread_step t env w)).
  destruct (Nat.eq_dec t tid) as [-> | N].
  - apply exited_stays. destruct Hf as [f Hf].
    destruct (thread_step_after_stop tid env w i c l f Ht Hf
                (Forall_lookup_1 _ _ _ _ Hs Hf)) as [E _].
    rewrite E. cbn [threads]. eapply set_thread_state_lookup, Ht.
  - destruct Hin as [E | Hin]; [cbn in E; congruence |].
    destruct (thread_step_stopped t env w Hs) as (S1 & S2 & _).
    apply (IH _ tid i c l S1); [| | exact Hin].
    + rewrite thread_step_other by auto. exact Ht.
    + apply lookup_lt_is_Some. rewrite <- (Forall2_length _ _ _ S2).
      apply lookup_lt_is_Some, Hf.
Qed.

(* ------------------------------------------------------------------ *)
(** ** One forwarder, one thread *)

Lemma iteration_sent_port tid env s :
  exists new,
    sent (trace (iteration tid env s)) = sent (trace s) ++ new /\
    Forall (fun d => snd d = broadcast_port (self s)) new.
Proof.
  destruct (iteration_cases tid env s) as [_ C].
  destruct C as [R | e R | m R Ne | m R Eq Snd | m e R Eq Snd];
    rewrite ?sent_stats_check; cbn [trace].
  - exists []. rewrite app_nil_r. split; [| constructor].
    destruct (10 <=? _); cbn [trace]; rewrite ?sent_app; cbn;
      rewrite ?app_nil_r; reflexivity.
  - exists []. rewrite sent_app. cbn. split; [reflexivity | constructor].
  - exists []. rewrite app_nil_r. split; [reflexivity | constructor].
  - eexists. rewrite sent_app. cbn [sent flat_map app].
    split; [reflexivity |]. repeat constructor.
  - exists []. rewrite sent_app. cbn. split; [reflexivity | constructor].
Qed.

(** X9: a step of a forwarder thread changes no forwarder object but its
    own and no thread but itself, stays with its forwarder, and every
    datagram it sends goes to the broadcast port of its own forwarder. *)
Theorem thread_touches_only_its_forwarder (tid : nat) (env : Env) (w : World)
    (i : nat) (ts : thread_state) :
  threads w !! tid = Some (i, ts) ->
  let w' := thread_step tid env w in
  (forall j, j <> i -> forwarders w' !! j = forwarders w !! j) /\
  (forall t, t <> tid -> threads w' !! t = threads w !! t) /\
  (exists ts', threads w' !! tid = Some (i, ts')) /\
  (forall f, forwarders w !! i = Some f ->
     exists new,
       sent (wtrace w') = sent (wtrace w) ++ new /\
       Forall (fun d => snd d = broadcast_port f) new).
Proof.
  intros Ht. cbv zeta. split; [| split; [| split]].
  - intros j N. unfold thread_step. rewrite Ht.
    destruct (forwarders w !! i) as [f |] eqn:Hf; [| reflexivity].
    destruct ts as [| c l | | e]; [| | reflexivity | reflexivity].
    + destruct (forward_loop_prologue env f) as [e | [[f' ts'] es]];
        cbn [forwarders]; [reflexivity |].
      apply list_lookup_insert_ne. auto.
    + destruct (running f); [| reflexivity].
      destruct (iteration_m tid env (mkLoop f c l (wtrace w))) as [[e | u] s];
        cbn [forwarders]; apply list_lookup_insert_ne; auto.
  - intros t N. apply thread_step_other, N.
  - eapply thread_step_owner, Ht.
  - intros f Hf. unfold thread_step. rewrite Ht, Hf.
    destruct ts as [| c l | | e].
    + unfold forward_loop_prologue.
      destruct (connection_result env); cbn [wtrace].
      * exists []. rewrite app_nil_r. split; [reflexivity | constructor].
      * exists []. rewrite sent_app. cbn. split; [reflexivity | constructor].
    + destruct (running f).
      * destruct (iteration_cases tid env (mkLoop f c l (wtrace w)))
          as [E _].
        rewrite E. cbn [wtrace].
        apply (iteration_sent_port tid env (mkLoop f c l (wtrace w))).
      * exists []. cbn [wtrace]. rewrite sent_app. cbn.
        split; [reflexivity | constructor].
    + exists []. rewrite app_nil_r. split; [reflexivity | constructor].
    + exists []. rewrite app_nil_r. split; [reflexivity | constructor].
Qed.

(** X10: [stop()] only clears the flag.  When [start()] is called again
    before the loop has read it, the old thread finds the flag set at its
    next step and stays in its loop, beside the thread that the second
    [start()] has started for the same forwarder. *)
Theorem restart_before_the_loop_notices (w : World) (i t : nat) (c : Z)
    (l now : Q) (f : Forwarder) (env : Env) :
  threads w !! t = Some (i, TLooping c l) ->
  forwarders w !! i = Some f ->
  let w' := start i now (stop i w) in
  threads w' = threads w ++ [(i, TCreated)] /\
  (exists f', forwarders w' !! i = Some f' /\ running f' = true /\
              thread f' = Some (length (threads w))) /\
  exists c' l',
    threads (thread_step t env w') !! t = Some (i, TLooping c' l') /\
    threads (thread_step t env w') !! length (threads w) = Some (i, TCreated).
Proof.
  intros Ht Hf. cbv zeta.
  assert (Hlt : (i < length (forwarders w))%nat)
    by (eapply lookup_lt_Some, Hf).
  assert (Hg : forwarders (stop i w) !! i = Some (set_running false f)).
  { rewrite (stop_at i w f Hf). cbn [forwarders].
    apply list_lookup_insert_eq, Hlt. }
  assert (Hthr : threads (stop i w) = threads w)
    by (rewrite (stop_at i w f Hf); reflexivity).
  rewrite (start_fresh i now (stop i w) _ Hg eq_refl).
  rewrite Hthr. cbn [threads forwarders].
  set (f' := set_thread (Some (length (threads w)))
               (set_start_time (Some now)
                  (set_running true (set_running false f)))).
  set (w' := mkWorld _ _ _).
  assert (Hf' : forwarders w' !! i = Some f').
  { unfold w'. cbn [forwarders]. apply list_lookup_insert_eq.
    eapply lookup_lt_Some, Hg. }
  assert (Ht' : threads w' !! t = Some (i, TLooping c l)).
  { unfold w'. cbn [threads]. apply lookup_app_l_Some, Ht. }
  split; [reflexivity |]. split.
  - exists f'. split; [exact Hf' |]. split; reflexivity.
  - rewrite (thread_step_iteration t env w' i c l f' Ht' Hf' eq_refl).
    cbn [threads]. eexists _, _. split.
    + eapply set_thread_state_lookup, Ht'.
    + unfold set_thread_state. rewrite list_lookup_alter_ne.
      * unfold w'. cbn [threads]. rewrite lookup_app_r by lia.
        rewrite Nat.sub_diag. reflexivity.
      * apply lookup_lt_Some in Ht. lia.
Qed.

(* ------------------------------------------------------------------ *)
(** ** [_log_stats] *)

(** X11: [_log_stats] never raises and changes neither the forwarder object
    nor the variables of the loop; it writes one INFO statistics record when
    the time since [start_time] is positive and nothing otherwise, so
    nothing for a forwarder whose [start_time] is still [None]. *)
Theorem log_stats_total (env : Env) (s : loop_state) :
  exists lines,
    _log_stats env s =
      (inr tt, mkLoop (self s) (consecutive_timeouts s) (last_stats_time s)
                      (trace s ++ lines)) /\
    forallb is_stats_line lines = true /\
    ((0 < to_Q (duration (time_stats env) (self s)))%Q -> length lines = 1%nat) /\
    (~ (0 < to_Q (duration (time_stats env) (self s)))%Q -> lines = []) /\
    (start_time (self s) = None -> lines = []).
Proof.
  exists (stats_lines env (self s)). split; [apply log_stats_run |].
  unfold stats_lines.
  destruct (py_pos (duration (time_stats env) (self s))) eqn:E.
  - apply py_pos_spec in E. split; [reflexivity |]. split; [reflexivity |].
    split; [intros N; contradiction |].
    intros N. unfold duration in E. rewrite N in E. cbn in E.
    exfalso. exact (Qlt_irrefl _ E).
  - split; [reflexivity |]. split; [| split; reflexivity].
    intros P. apply py_pos_spec in P. congruence.
Qed.

(* ------------------------------------------------------------------ *)
(** ** [start_all], then the threads, then [stop_all] *)

Lemma all_started_thread_step cfg start_at tid env w :
  all_started cfg start_at w -> all_started cfg start_at (thread_step tid env w).
Proof.
  intros (Hn & Hobj).
  pose proof (step_objs (EvThread tid env) w) as F2. cbn [step] in F2.
  split.
  - rewrite <- (Forall2_length _ _ _ F2). exact Hn.
  - intros j c Hc. destruct (Hobj j c Hc) as (f & Hf & Hb & H1 & H2 & H3).
    destruct (Forall2_lookup_l _ _ _ _ _ F2 Hf) as (g & Hg & Hs).
    apply thread_obj_step_lifecycle in Hs.
    destruct Hs as (S1 & S2 & S3 & S4 & S5 & S6 & S7).
    exists g. split; [exact Hg |]. unfold built_from in *.
    rewrite S1, S2, S3, S4, S5, S6, S7. auto.
Qed.

Lemma all_started_run_threads cfg start_at during :
  forall w,
    all_started cfg start_at w ->
    all_started cfg start_at (run_threads during w).
Proof.
  induction during as [| [tid env] during IH]; intros w H; [exact H |].
  apply IH, all_started_thread_step, H.
Qed.

Lemma start_all_all_started cfg sched :
  all_started cfg (fun j => fst (sched j))
    (start_all sched (manager_init cfg)).
Proof.
  unfold start_all.
  assert (Ln : length (forwarders (manager_init cfg)) = length cfg)
    by (unfold manager_init; cbn [forwarders]; apply length_map).
  rewrite Ln.
  pose proof (started_upto_fold cfg sched (length cfg) (Nat.le_refl _)) as H.
  set (w2 := foldl _ _ _) in *. clearbody w2.
  destruct H as (Hn & _ & Hobj & _ & _).
  unfold emit_w. split; cbn [forwarders]; [exact Hn |].
  intros j c Hc. destruct (Hobj j c Hc) as (f & Hf & Hb & Hl).
  assert (L : (j <? length cfg)%nat = true).
  { apply Nat.ltb_lt. eapply lookup_lt_Some, Hc. }
  rewrite L in Hl. destruct Hl as (H1 & H2 & H3).
  exists f. auto.
Qed.

Lemma stop_effects_of_started cfg start_at w :
  all_started cfg start_at w ->
  flat_map stop_effects (forwarders w) = concat (imap join_effects cfg).
Proof.
  intros (Hn & Hobj). rewrite flat_map_concat_map. f_equal.
  apply list_eq. intros j.
  rewrite list_lookup_imap.
  change (map stop_effects (forwarders w)) with (stop_effects <$> forwarders w).
  rewrite list_lookup_fmap.
  destruct (cfg !! j) as [c |] eqn:Hc.
  - destruct (Hobj j c Hc) as (f & Hf & (B1 & _) & _ & H2 & _).
    rewrite Hf. cbn. unfold stop_effects, join_effects.
    rewrite H2, B1. reflexivity.
  - apply lookup_ge_None in Hc.
    rewrite (proj2 (lookup_ge_None (forwarders w) j)) by lia. reflexivity.
Qed.

Lemma start_when_all_started cfg start_at w i now :
  all_started cfg start_at w -> start i now w = w.
Proof.
  intros (Hn & Hobj). unfold start.
  destruct (forwarders w !! i) as [f |] eqn:Hf; [| reflexivity].
  assert (Hi : (i < length cfg)%nat).
  { rewrite <- Hn. eapply lookup_lt_Some, Hf. }
  destruct (lookup_lt_is_Some_2 cfg i Hi) as [c Hc].
  destruct (Hobj i c Hc) as (g & Hg & _ & Hr & _).
  rewrite Hf in Hg. injection Hg as <-. rewrite Hr. reflexivity.
Qed.

Lemma run_threads_frame during :
  forall w,
    caller_effects (wtrace (run_threads during w)) = caller_effects (wtrace w) /\
    length (threads (run_threads during w)) = length (threads w).
Proof.
  induction during as [| [tid env] during IH]; intros w; [auto |].
  change (run_threads ((tid, env) :: during) w)
    with (run_threads during (thread_step tid env w)).
  destruct (IH (thread_step tid env w)) as [I1 I2].
  destruct (thread_step_frame tid env w) as [E _].
  rewrite I1, I2, E, thread_step_length. auto.
Qed.

Lemma sleep_unfold secs during w :
  sleep secs during w = run_threads during (emit_w [ESleep None secs] w).
Proof. reflexivity. Qed.

Lemma start_again_fold cfg start_at sched l :
  forall w,
    all_started cfg start_at w ->
    let w' := foldl (fun w i => sleep 1 (snd (sched i))
                                  (start i (fst (sched i)) w)) w l in
    all_started cfg start_at w' /\
    length (threads w') = length (threads w) /\
    caller_effects (wtrace w') =
      caller_effects (wtrace w) ++ repeat (ESleep None 1%Q) (length l).
Proof.
  induction l as [| i l IH]; intros w Hw; cbv zeta.
  - cbn. rewrite app_nil_r. auto.
  - cbn [foldl]. rewrite (start_when_all_started _ _ _ _ _ Hw).
    rewrite sleep_unfold.
    set (w1 := run_threads (snd (sched i)) (emit_w [ESleep None 1%Q] w)).
    assert (H1 : all_started cfg start_at w1).
    { apply all_started_run_threads. exact Hw. }
    destruct (run_threads_frame (snd (sched i))
                (emit_w [ESleep None 1%Q] w)) as [F1 F2].
    fold w1 in F1, F2. cbn [emit_w wtrace threads] in F1, F2.
    destruct (IH w1 H1) as (I1 & I2 & I3). cbv zeta in I1, I2, I3.
    split; [exact I1 |]. split; [rewrite I2; exact F2 |].
    rewrite I3, F1, caller_effects_app, <- app_assoc. reflexivity.
Qed.

(** X13: a second [start_all] on a manager whose forwarders are all running
    starts no thread and changes no forwarder: it only logs its two records
    and sleeps one second per forwarder. *)
Theorem start_all_twice_starts_nothing (cfg : list Config)
    (start_at : nat -> Q) (sched : nat -> Q * list (nat * Env)) (w : World) :
  all_started cfg start_at w ->
  let w' := start_all sched w in
  all_started cfg start_at w' /\
  length (threads w') = length (threads w) /\
  caller_effects (wtrace w') =
    caller_effects (wtrace w) ++ [ELog INFO MsgStartingAll] ++
    repeat (ESleep None 1%Q) (length cfg) ++
    [ELog INFO (MsgStartedAll (length cfg))].
Proof.
  intros Hw. cbv zeta. unfold start_all.
  assert (Hw0 : all_started cfg start_at (emit_w [ELog INFO MsgStartingAll] w))
    by exact Hw.
  destruct (start_again_fold cfg start_at sched
              (seq 0 (length (forwarders w))) _ Hw0) as (A1 & A2 & A3).
  cbv zeta in A1, A2, A3.
  set (w2 := foldl _ _ _) in *. clearbody w2.
  cbn [emit_w wtrace threads] in A2, A3.
  unfold emit_w at 1 2 3. cbn [forwarders threads wtrace].
  split; [exact A1 |]. split; [exact A2 |].
  destruct A1 as (N2 & _). destruct Hw as (N1 & _).
  rewrite caller_effects_app, A3, caller_effects_app, length_seq, N1, N2.
  cbn. rewrite <- !app_assoc. reflexivity.
Qed.

(* ------------------------------------------------------------------ *)
(** ** [stop_all] while the threads run *)

Lemma kept_by_stop_refl f : kept_by_stop f f.
Proof.
  unfold kept_by_stop. do 6 (split; [reflexivity |]).
  split; [apply counters_le_refl | auto].
Qed.

Lemma kept_by_stop_trans f g h :
  kept_by_stop f g -> kept_by_stop g h -> kept_by_stop f h.
Proof.
  unfold kept_by_stop.
  intros (A1 & A2 & A3 & A4 & A5 & A6 & A7 & A8)
         (B1 & B2 & B3 & B4 & B5 & B6 & B7 & B8).
  do 6 (split; [congruence |]).
  split; [exact (counters_le_trans _ _ _ A7 B7) | auto].
Qed.

Lemma Forall2_kept_refl l : Forall2 kept_by_stop l l.
Proof. induction l; constructor; [apply kept_by_stop_refl | assumption]. Qed.

Lemma Forall2_kept_trans l1 l2 l3 :
  Forall2 kept_by_stop l1 l2 -> Forall2 kept_by_stop l2 l3 ->
  Forall2 kept_by_stop l1 l3.
Proof.
  intros H. revert l3. induction H as [| f g l1 l2 Hfg _ IH]; intros l3 H23.
  - inversion H23. constructor.
  - inversion H23 as [| g' h l2' l3' Hgh Hrest]; subst.
    constructor; [exact (kept_by_stop_trans _ _ _ Hfg Hgh) | auto].
Qed.

Lemma thread_step_kept tid env w :
  Forall2 kept_by_stop (forwarders w) (forwarders (thread_step tid env w)).
Proof.
  pose proof (step_objs (EvThread tid env) w) as F2. cbn [step] in F2.
  induction F2 as [| f f' l l' Ho _ IH]; constructor; [| exact IH].
  pose proof (obj_step_counters_le _ _ _ Ho) as Hle.
  apply thread_obj_step_lifecycle in Ho.
  destruct Ho as (S1 & S2 & S3 & S4 & S5 & S6 & S7).
  unfold kept_by_stop. do 6 (split; [assumption |]).
  split; [exact Hle | congruence].
Qed.

Lemma threads_kept_refl w : threads_kept w w.
Proof. split; [reflexivity |]. intros t i ts H. exists ts. auto. Qed.

Lemma threads_kept_trans w1 w2 w3 :
  threads_kept w1 w2 -> threads_kept w2 w3 -> threads_kept w1 w3.
Proof.
  intros [L1 K1] [L2 K2]. split; [congruence |].
  intros t i ts H. destruct (K1 t i ts H) as (ts' & H' & P').
  destruct (K2 t i ts' H') as (ts'' & H'' & P'').
  exists ts''. auto.
Qed.

Lemma thread_step_threads_kept tid env w : threads_kept w (thread_step tid env w).
Proof.
  split; [apply thread_step_length |].
  intros t i ts Ht. destruct (Nat.eq_dec t tid) as [-> | N].
  - unfold thread_step. rewrite Ht.
    destruct (forwarders w !! i) as [f |]; [| exists ts; auto].
    destruct ts as [| c l | | e].
    + destruct (forward_loop_prologue env f) as [e | [[f' ts'] es]];
        cbn [threads]; eexists;
        (split; [eapply set_thread_state_lookup, Ht | intros []]).
    + destruct (running f).
      * destruct (iteration_cases tid env (mkLoop f c l (wtrace w))) as [E _].
        rewrite E. cbn [threads]. eexists.
        split; [eapply set_thread_state_lookup, Ht | intros _; exact I].
      * cbn [threads]. eexists.
        split; [eapply set_thread_state_lookup, Ht | intros _; exact I].
    + exists TExited. auto.
    + exists (TCrashed e). auto.
  - exists ts. rewrite thread_step_other by exact N. auto.
Qed.

(** The forwarder threads, whatever they do, keep all this. *)
Lemma run_threads_kept during :
  forall w,
    Forall2 kept_by_stop (forwarders w) (forwarders (run_threads during w)) /\
    threads_kept w (run_threads during w).
Proof.
  induction during as [| [tid env] during IH]; intros w.
  - split; [apply Forall2_kept_refl | apply threads_kept_refl].
  - change (run_threads ((tid, env) :: during) w)
      with (run_threads during (thread_step tid env w)).
    destruct (IH (thread_step tid env w)) as [I1 I2].
    split.
    + exact (Forall2_kept_trans _ _ _ (thread_step_kept tid env w) I1).
    + exact (threads_kept_trans _ _ _ (thread_step_threads_kept tid env w) I2).
Qed.

Lemma stop_joining_nothing i w : stop_joining [] i w = stop i w.
Proof.
  unfold stop_joining, stop.
  destruct (forwarders w !! i) as [f |]; [| reflexivity].
  unfold emit_w. cbn. rewrite <- app_assoc. reflexivity.
Qed.

(** With no thread step during its joins, [stop_all] is the plain loop of
    [stop()] calls. *)
Lemma stop_all_no_steps w :
  stop_all (fun _ => []) w =
  emit_w [ELog INFO MsgAllStopped]
    (foldl (fun w i => stop i w) (emit_w [ELog INFO MsgStoppingAll] w)
           (seq 0 (length (forwarders w)))).
Proof.
  unfold stop_all. f_equal.
  generalize (emit_w [ELog INFO MsgStoppingAll] w) as w0.
  induction (seq 0 (length (forwarders w))) as [| i l IH]; intros w0;
    [reflexivity |].
  cbn [foldl]. rewrite stop_joining_nothing. apply IH.
Qed.

(** One [stop()] of [stop_all], with the threads running during the
    join. *)
Lemma stop_joining_kept during i w f :
  forwarders w !! i = Some f ->
  let w' := stop_joining during i w in
  Forall2 kept_by_stop (forwarders w) (forwarders w') /\
  threads_kept w w' /\
  caller_effects (wtrace w') = caller_effects (wtrace w) ++ stop_effects f /\
  exists f', forwarders w' !! i = Some f' /\ running f' = false.
Proof.
  intros Hf. cbv zeta. unfold stop_joining. rewrite Hf.
  set (w1 := mkWorld (<[i := set_running false f]> (forwarders w)) (threads w)
               (wtrace w ++ match thread f with
                            | Some tid => [EJoin tid 2%Q]
                            | None => []
                            end)).
  destruct (run_threads_kept during w1) as [K1 K2].
  destruct (run_threads_frame during w1) as [F1 _].
  assert (K0 : Forall2 kept_by_stop (forwarders w) (forwarders w1)).
  { unfold w1. cbn [forwarders].
    rewrite <- (list_insert_id (forwarders w) i f Hf) at 1.
    apply Forall2_insert; [apply Forall2_kept_refl |].
    unfold kept_by_stop. do 6 (split; [reflexivity |]).
    split; [apply (counters_le_refl f) | reflexivity]. }
  assert (H1 : forwarders w1 !! i = Some (set_running false f)).
  { unfold w1. cbn [forwarders]. apply list_lookup_insert_eq.
    eapply lookup_lt_Some, Hf. }
  unfold emit_w. cbn [forwarders threads wtrace].
  split; [exact (Forall2_kept_trans _ _ _ K0 K1) |].
  split; [exact K2 |]. split.
  - rewrite caller_effects_app, F1. unfold w1. cbn [wtrace].
    rewrite caller_effects_app, <- app_assoc. unfold stop_effects.
    destruct (thread f); reflexivity.
  - destruct (Forall2_lookup_l _ _ _ _ _ K1 H1) as (f' & Hf' & K).
    exists f'. split; [exact Hf' |].
    destruct K as (_ & _ & _ & _ & _ & _ & _ & K). apply K. reflexivity.
Qed.

Lemma stop_effects_kept f f' : kept_by_stop f f' -> stop_effects f' = stop_effects f.
Proof.
  intros (K1 & _ & K3 & _). unfold stop_effects. rewrite K1, K3. reflexivity.
Qed.

(** The loop of [stop_all] after [k] forwarders. *)
Lemma stop_joining_fold joins w k :
  (k <= length (forwarders w))%nat ->
  let wk := foldl (fun w i => stop_joining (joins i) i w) w (seq 0 k) in
  Forall2 kept_by_stop (forwarders w) (forwarders wk) /\
  threads_kept w wk /\
  caller_effects (wtrace wk) =
    caller_effects (wtrace w) ++ flat_map stop_effects (take k (forwarders w)) /\
  forall j, (j < k)%nat ->
    exists f', forwarders wk !! j = Some f' /\ running f' = false.
Proof.
  induction k as [| k IH]; intros Hk; cbv zeta.
  - cbn [seq foldl take flat_map]. rewrite app_nil_r.
    split; [apply Forall2_kept_refl |]. split; [apply threads_kept_refl |].
    split; [reflexivity |]. intros j Hj. lia.
  - rewrite seq_S, foldl_app. cbn [foldl Nat.add].
    destruct (IH ltac:(lia)) as (I1 & I2 & I3 & I4). cbv zeta in I1, I2, I3, I4.
    set (wk := foldl (fun w i => stop_joining (joins i) i w) w (seq 0 k)) in *.
    destruct (lookup_lt_is_Some_2 (forwarders w) k ltac:(lia)) as [f Hf].
    destruct (Forall2_lookup_l _ _ _ _ _ I1 Hf) as (g & Hg & Kfg).
    destruct (stop_joining_kept (joins k) k wk g Hg) as (S1 & S2 & S3 & S4).
    cbv zeta in S1, S2, S3, S4.
    split; [exact (Forall2_kept_trans _ _ _ I1 S1) |].
    split; [exact (threads_kept_trans _ _ _ I2 S2) |]. split.
    + rewrite S3, I3, (take_S_r _ _ _ Hf), flat_map_app, <- app_assoc.
      cbn [flat_map]. rewrite app_nil_r, (stop_effects_kept _ _ Kfg).
      reflexivity.
    + intros j Hj. destruct (Nat.eq_dec j k) as [-> | N]; [exact S4 |].
      destruct (I4 j ltac:(lia)) as (h & Hh & Rh).
      destruct (Forall2_lookup_l _ _ _ _ _ S1 Hh) as (h' & Hh' & K).
      exists h'. split; [exact Hh' |].
      destruct K as (_ & _ & _ & _ & _ & _ & _ & K). exact (K Rh).
Qed.

Lemma stop_all_kept joins w :
  let w' := stop_all joins w in
  all_stopped w' /\
  Forall2 kept_by_stop (forwarders w) (forwarders w') /\
  threads_kept w w' /\
  caller_effects (wtrace w') =
    caller_effects (wtrace w) ++ [ELog INFO MsgStoppingAll] ++
    flat_map stop_effects (forwarders w) ++ [ELog INFO MsgAllStopped].
Proof.
  cbv zeta. unfold stop_all.
  pose proof (stop_joining_fold joins (emit_w [ELog INFO MsgStoppingAll] w)
                (length (forwarders w)) (Nat.le_refl _)) as H.
  cbv zeta in H.
  change (forwarders (emit_w [ELog INFO MsgStoppingAll] w))
    with (forwarders w) in *.
  set (w2 := foldl _ _ _) in *. clearbody w2.
  destruct H as (K1 & K2 & K3 & K4).
  unfold emit_w in *. cbn [forwarders threads wtrace] in *.
  split; [| split; [exact K1 | split]].
  - unfold all_stopped. cbn [forwarders]. apply Forall_lookup_2.
    intros j f' Hf'.
    assert (Hj : (j < length (forwarders w))%nat).
    { rewrite (Forall2_length _ _ _ K1). eapply lookup_lt_Some, Hf'. }
    destruct (K4 j Hj) as (g & Hg & Rg). congruence.
  - exact K2.
  - rewrite caller_effects_app, K3, caller_effects_app.
    rewrite take_ge by lia. rewrite <- !app_assoc. reflexivity.
Qed.

(** X7: [stop_all], whatever the forwarder threads do while it waits in its
    joins, ends with the flag of every forwarder cleared; it changes no
    other field written by [__init__] or [start], lowers no counter, and
    starts or loses no thread; and the caller does exactly this, in list
    order: it joins with a timeout of 2 s the thread of each forwarder that
    has one (nothing for a forwarder never started) and logs each stop,
    between its two own log records. *)
Theorem stop_all_stops_each_in_order (joins : nat -> list (nat * Env))
    (w : World) :
  let w' := stop_all joins w in
  all_stopped w' /\
  Forall2 kept_by_stop (forwarders w) (forwarders w') /\
  length (threads w') = length (threads w) /\
  (forall t i ts,
     threads w !! t = Some (i, ts) ->
     exists ts', threads w' !! t = Some (i, ts')) /\
  caller_effects (wtrace w') =
    caller_effects (wtrace w) ++ [ELog INFO MsgStoppingAll] ++
    flat_map stop_effects (forwarders w) ++ [ELog INFO MsgAllStopped].
Proof.
  cbv zeta. destruct (stop_all_kept joins w) as (A & B & [C1 C2] & D).
  split; [exact A |]. split; [exact B |]. split; [exact C1 |].
  split; [| exact D].
  intros t i ts Ht. destruct (C2 t i ts Ht) as (ts' & Hts' & _).
  exists ts'. exact Hts'.
Qed.

(** X8: after [stop_all], whatever the forwarder threads did during its
    joins and whatever they still do, no counter and no set of senders
    changes any more, nothing is put on the wire and no flag is set again;
    and every thread that was in its loop before [stop_all] and gets to run
    afterwards has left the loop. *)
Theorem nothing_relayed_after_stop_all (joins : nat -> list (nat * Env))
    (w : World) (sched : list (nat * Env)) :
  let w0 := stop_all joins w in
  let w' := run_threads sched w0 in
  Forall2 same_counters (forwarders w0) (forwarders w') /\
  all_stopped w' /\
  sent (wtrace w') = sent (wtrace w0) /\
  (forall tid i c l,
     threads w !! tid = Some (i, TLooping c l) ->
     is_Some (forwarders w !! i) ->
     In tid (map fst sched) ->
     threads w' !! tid = Some (i, TExited)).
Proof.
  cbv zeta.
  destruct (stop_all_kept joins w) as (Hs & K1 & [_ K2] & _).
  destruct (run_threads_stopped sched (stop_all joins w) Hs) as (R1 & R2 & R3).
  split; [exact R2 |]. split; [exact R1 |]. split; [exact R3 |].
  intros tid i c l Ht Hf Hin.
  destruct (K2 tid i _ Ht) as (ts' & Hts' & P). specialize (P I).
  destruct ts' as [| c' l' | | e]; try contradiction.
  - apply (looping_thread_exits sched (stop_all joins w) tid i c' l' Hs Hts');
      [| exact Hin].
    apply lookup_lt_is_Some. rewrite <- (Forall2_length _ _ _ K1).
    apply lookup_lt_is_Some, Hf.
  - apply exited_stays, Hts'.
Qed.

Lemma stop_effects_of_kept l l' :
  Forall2 kept_by_stop l l' ->
  flat_map stop_effects l = flat_map stop_effects l'.
Proof.
  induction 1 as [| f f' l l' K _ IH]; [reflexivity |].
  cbn [flat_map]. rewrite IH, (stop_effects_kept _ _ K). reflexivity.
Qed.

(** X12: the shutdown of [main].  After [start_all], and whatever the
    forwarder threads have done since and do during the joins, [stop_all]
    joins the thread of every forwarder, in configuration order and with a
    timeout of 2 s, and logs each stop; it leaves every forwarder not
    running, still holding its thread and its start time, with no counter
    lowered, and starts or loses no thread. *)
Theorem stop_all_joins_every_started_thread (cfg : list Config)
    (sched : nat -> Q * list (nat * Env)) (during : list (nat * Env))
    (joins : nat -> list (nat * Env)) :
  let w1 := run_threads during (start_all sched (manager_init cfg)) in
  let w2 := stop_all joins w1 in
  caller_effects (wtrace w2) =
    caller_effects (wtrace w1) ++ [ELog INFO MsgStoppingAll] ++
    concat (imap join_effects cfg) ++ [ELog INFO MsgAllStopped] /\
  length (threads w2) = length (threads w1) /\
  (forall j c, cfg !! j = Some c ->
     exists f f',
       forwarders w1 !! j = Some f /\ forwarders w2 !! j = Some f' /\
       running f' = false /\ thread f' = Some j /\
       start_time f' = Some (fst (sched j)) /\ counters_le f f').
Proof.
  cbv zeta.
  pose proof (all_started_run_threads cfg _ during _
                (start_all_all_started cfg sched)) as Hst.
  set (w1 := run_threads during _) in *. clearbody w1.
  destruct (stop_all_kept joins w1) as (Hs & K1 & [L _] & E).
  split; [| split].
  - rewrite E, (stop_effects_of_started _ _ _ Hst). reflexivity.
  - exact L.
  - intros j c Hc. destruct Hst as (_ & Hobj).
    destruct (Hobj j c Hc) as (f & Hf & _ & _ & H2 & H3).
    destruct (Forall2_lookup_l _ _ _ _ _ K1 Hf) as (f' & Hf' & K).
    exists f, f'. split; [exact Hf |]. split; [exact Hf' |].
    split; [exact (Forall_lookup_1 _ _ _ _ Hs Hf') |].
    destruct K as (T1 & T2 & _ & _ & _ & _ & T7 & _).
    rewrite T1, T2. auto.
Qed.

(* ------------------------------------------------------------------ *)
(** ** [stop_all] and runs *)

(** What an iteration does to the forwarder object and to the variables of
    the loop does not depend on what has been written so far. *)
Lemma stats_check_fields env f c l tr tr' :
  self (stats_check env (mkLoop f c l tr)) =
    self (stats_check env (mkLoop f c l tr')) /\
  consecutive_timeouts (stats_check env (mkLoop f c l tr)) =
    consecutive_timeouts (stats_check env (mkLoop f c l tr')) /\
  last_stats_time (stats_check env (mkLoop f c l tr)) =
    last_stats_time (stats_check env (mkLoop f c l tr')).
Proof.
  unfold stats_check. cbn [last_stats_time].
  destruct (Qle_bool _ _); cbn; auto.
Qed.

Lemma iteration_trace_irrelevant tid env f c l tr tr' :
  self (iteration tid env (mkLoop f c l tr)) =
    self (iteration tid env (mkLoop f c l tr')) /\
  consecutive_timeouts (iteration tid env (mkLoop f c l tr)) =
    consecutive_timeouts (iteration tid env (mkLoop f c l tr')) /\
  last_stats_time (iteration tid env (mkLoop f c l tr)) =
    last_stats_time (iteration tid env (mkLoop f c l tr')).
Proof.
  unfold iteration. destruct (recv_result env) as [e | | m] eqn:R.
  - rewrite (iteration_recv_raise tid env f c l tr e R),
      (iteration_recv_raise tid env f c l tr' e R). cbn. auto.
  - rewrite (iteration_timeout tid env f c l tr R),
      (iteration_timeout tid env f c l tr' R).
    destruct (10 <=? c + 1); cbn; auto.
  - destruct (Z.eq_dec (get_srcSystem m) (expected_sysid f)) as [Eq | Ne].
    + destruct (sendto_result env) as [e |] eqn:Snd.
      * rewrite (iteration_send_raise tid env f c l tr m e R Eq Snd),
          (iteration_send_raise tid env f c l tr' m e R Eq Snd). cbn. auto.
      * rewrite (iteration_forwarded tid env f c l tr m R Eq Snd),
          (iteration_forwarded tid env f c l tr' m R Eq Snd).
        apply stats_check_fields.
    + rewrite (iteration_filtered tid env f c l tr m R Ne),
        (iteration_filtered tid env f c l tr' m R Ne).
      apply stats_check_fields.
Qed.

Lemma thread_step_same_state tid env w w' :
  same_state w w' ->
  same_state (thread_step tid env w) (thread_step tid env w').
Proof.
  intros [E1 E2]. destruct w as [fs ths tr], w' as [fs' ths' tr'].
  cbn [forwarders threads] in E1, E2. subst fs' ths'.
  unfold same_state, thread_step, set_thread_state. cbn [forwarders threads wtrace].
  destruct (ths !! tid) as [[i ts] |]; [| auto].
  destruct (fs !! i) as [f |]; [| auto].
  destruct ts as [| c l | | e]; [| | auto | auto].
  - destruct (forward_loop_prologue env f) as [e | [[f' ts'] es]];
      cbn [forwarders threads]; auto.
  - destruct (running f); [| cbn [forwarders threads]; auto].
    destruct (iteration_cases tid env (mkLoop f c l tr)) as [E _].
    destruct (iteration_cases tid env (mkLoop f c l tr')) as [E' _].
    rewrite E, E'. cbn [forwarders threads].
    destruct (iteration_trace_irrelevant tid env f c l tr tr') as (A & B & C).
    rewrite A, B, C. auto.
Qed.

Lemma run_threads_same_state during :
  forall w w',
    same_state w w' ->
    same_state (run_threads during w) (run_threads during w').
Proof.
  induction during as [| [tid env] during IH]; intros w w' H; [exact H |].
  change (run_threads ((tid, env) :: during) w)
    with (run_threads during (thread_step tid env w)).
  change (run_threads ((tid, env) :: during) w')
    with (run_threads during (thread_step tid env w')).
  apply IH, thread_step_same_state, H.
Qed.

(** One [stop()] of [stop_all] leaves the objects and the threads as the
    call of [stop()] followed by the same thread steps does: only the place
    of the log record of the stop in the trace differs. *)
Lemma stop_joining_same_state during i w w' :
  same_state w w' ->
  same_state (stop_joining during i w)
    (run (EvStop i :: map (fun p => EvThread (fst p) (snd p)) during) w').
Proof.
  intros H. rewrite run_cons, <- run_threads_run. cbn [step].
  assert (H' : same_state
                 (match forwarders w !! i with
                  | None => w
                  | Some f =>
                      mkWorld (<[i := set_running false f]> (forwarders w))
                        (threads w)
                        (wtrace w ++ match thread f with
                                     | Some tid => [EJoin tid 2%Q]
                                     | None => []
                                     end)
                  end) (stop i w')).
  { destruct H as [E1 E2]. unfold stop. rewrite <- E1.
    destruct (forwarders w !! i); split; cbn [forwarders threads]; auto. }
  apply (run_threads_same_state during) in H'.
  unfold stop_joining.
  destruct (forwarders w !! i); [| exact H'].
  destruct H' as [A B]. split; cbn [emit_w forwarders threads]; assumption.
Qed.

(** [stop_all] reaches the objects and threads of a run of [stop()] calls
    and thread steps, so what holds of the forwarder objects along every
    run holds after it. *)
Lemma stop_all_run joins w :
  exists evs, same_state (stop_all joins w) (run evs w).
Proof.
  unfold stop_all.
  assert (F : forall l w0 w0', same_state w0 w0' ->
            exists evs,
              same_state
                (foldl (fun w i => stop_joining (joins i) i w) w0 l)
                (run evs w0')).
  { induction l as [| i l IH]; intros w0 w0' H; [exists []; exact H |].
    cbn [foldl].
    destruct (IH _ _ (stop_joining_same_state (joins i) i w0 w0' H))
      as [evs E].
    eexists (_ ++ evs). rewrite run_app. exact E. }
  destruct (F (seq 0 (length (forwarders w)))
              (emit_w [ELog INFO MsgStoppingAll] w) w) as [evs [E1 E2]].
  { split; reflexivity. }
  exists evs. split; cbn [emit_w forwarders threads]; assumption.
Qed.

(* ------------------------------------------------------------------ *)
(** * The further properties on concrete runs *)

Lemma every_frame_counted_and_recorded_witness :
  running (self drone2_looping) = true /\
  length (frames lossy_schedule) = 4%nat /\
  packets_received (self (forward_loop 0 lossy_schedule drone2_looping)) = 4 /\
  system_ids_seen (self (forward_loop 0 lossy_schedule drone2_looping)) =
    system_ids_seen (self drone2_looping) ∪ senders (frames lossy_schedule).
Proof.
  destruct (every_frame_counted_and_recorded 0 lossy_schedule drone2_looping
              eq_refl) as [A B].
  split; [reflexivity |]. split; [reflexivity |].
  split; [exact A | exact B].
Defined.

Lemma forwarded_counters_match_the_wire_witness :
  running (self drone2_looping) = true /\
  sent (trace (forward_loop 0 lossy_schedule drone2_looping)) =
    [(get_msgbuf (heartbeat 2), 14551); (get_msgbuf (attitude 2), 14551)] /\
  packets_forwarded (self (forward_loop 0 lossy_schedule drone2_looping)) = 2 /\
  bytes_forwarded (self (forward_loop 0 lossy_schedule drone2_looping)) = 10.
Proof.
  destruct (forwarded_counters_match_the_wire 0 lossy_schedule drone2_looping
              eq_refl) as (new & S1 & S2 & S3 & _).
  assert (E : sent (trace (forward_loop 0 lossy_schedule drone2_looping)) =
              [(get_msgbuf (heartbeat 2), 14551);
               (get_msgbuf (attitude 2), 14551)])
    by (vm_compute; reflexivity).
  rewrite E in S1. cbn [sent drone2_looping trace flat_map app] in S1.
  subst new.
  split; [reflexivity |]. split; [exact E |]. split; [exact S2 | exact S3].
Defined.

Lemma timeout_counter_stays_below_ten_witness :
  0 <= consecutive_timeouts drone2_looping < 10 /\
  0 <= consecutive_timeouts (forward_loop 0 twelve_timeouts drone2_looping)
    < 10.
Proof.
  assert (H : 0 <= consecutive_timeouts drone2_looping < 10) by (cbn; lia).
  split; [exact H |].
  exact (proj1 (timeout_counter_stays_below_ten 0 twelve_timeouts
                  drone2_looping H)).
Defined.

Lemma reported_metrics_in_range_witness :
  forwarders (run two_frames (manager_init main_config)) !! 0%nat
    = Some drone1_after_two_frames /\
  exists st,
    get_stats 102 drone1_after_two_frames = (inr st, drone1_after_two_frames) /\
    (0 <= to_Q (stats_filter_percentage st) <= 100)%Q.
Proof.
  assert (H : forwarders (run two_frames (manager_init main_config)) !! 0%nat
              = Some drone1_after_two_frames)
    by (vm_compute; reflexivity).
  split; [exact H |].
  destruct (reported_metrics_in_range main_config two_frames 0 _ 102 H)
    as (st & E & R & _).
  exists st. split; [exact E | exact R].
Defined.

Lemma thread_touches_only_its_forwarder_witness :
  let w := run two_frames (manager_init main_config) in
  let w' := thread_step 0 (env_frame (heartbeat 1) 105) w in
  threads w !! 0%nat = Some (0%nat, TLooping 0 100) /\
  forwarders w' !! 1%nat = forwarders w !! 1%nat /\
  forwarders w' !! 2%nat = forwarders w !! 2%nat.
Proof.
  cbv zeta.
  assert (H1 : threads (run two_frames (manager_init main_config)) !! 0%nat
               = Some (0%nat, TLooping 0 100)) by (vm_compute; reflexivity).
  destruct (thread_touches_only_its_forwarder 0 (env_frame (heartbeat 1) 105)
              _ _ _ H1) as (A & _).
  split; [exact H1 |]. split; apply A; discriminate.
Defined.

Lemma restart_before_the_loop_notices_witness :
  let w := run two_frames (manager_init main_config) in
  let w' := start 0 200 (stop 0 w) in
  threads w !! 0%nat = Some (0%nat, TLooping 0 100) /\
  forwarders w !! 0%nat = Some drone1_after_two_frames /\
  threads w' = [(0%nat, TLooping 0 100); (0%nat, TCreated)] /\
  exists c' l',
    threads (thread_step 0 (env_frame (heartbeat 1) 201) w') !! 0%nat
      = Some (0%nat, TLooping c' l').
Proof.
  cbv zeta.
  assert (H1 : threads (run two_frames (manager_init main_config)) !! 0%nat
               = Some (0%nat, TLooping 0 100)) by (vm_compute; reflexivity).
  assert (H2 : forwarders (run two_frames (manager_init main_config)) !! 0%nat
               = Some drone1_after_two_frames) by (vm_compute; reflexivity).
  destruct (restart_before_the_loop_notices _ 0%nat 0%nat 0 100%Q 200%Q _
              (env_frame (heartbeat 1) 201) H1 H2)
    as (A & _ & c' & l' & B & _).
  split; [exact H1 |]. split; [exact H2 |]. split; [exact A |].
  exists c', l'. exact B.
Defined.

Lemma log_stats_total_witness :
  let env := env_frame (heartbeat 2) 111 in
  (0 < to_Q (duration (time_stats env) (self drone2_looping)))%Q /\
  exists lines,
    _log_stats env drone2_looping =
      (inr tt, mkLoop (self drone2_looping) 0 100 lines) /\
    length lines = 1%nat.
Proof.
  cbv zeta.
  assert (H : (0 < to_Q (duration (time_stats (env_frame (heartbeat 2) 111))
                           (self drone2_looping)))%Q)
    by (apply py_pos_spec; reflexivity).
  split; [exact H |].
  destruct (log_stats_total (env_frame (heartbeat 2) 111) drone2_looping)
    as (lines & E & _ & L & _).
  exists lines. split; [exact E | exact (L H)].
Defined.

Lemma start_all_twice_starts_nothing_witness :
  let w := start_all calm_schedule (manager_init main_config) in
  all_started main_config (fun _ => 100%Q) w /\
  length (threads (start_all calm_schedule w)) = 3%nat.
Proof.
  cbv zeta.
  assert (H : all_started main_config (fun _ => 100%Q)
                (start_all calm_schedule (manager_init main_config))).
  { split; [reflexivity |].
    intros [| [| [| j]]] c Hc; cbn in Hc; try discriminate Hc;
      injection Hc as <-; eexists; (split; [vm_compute; reflexivity |]);
      repeat split. }
  split; [exact H |].
  destruct (start_all_twice_starts_nothing main_config _ calm_schedule _ H)
    as (_ & L & _).
  rewrite L. reflexivity.
Defined.

Lemma stop_all_stops_each_in_order_witness :
  let w := run two_frames (manager_init main_config) in
  let joins := fun i : nat =>
    if (i =? 1)%nat then [(0%nat, env_frame (heartbeat 1) 105)] else [] in
  threads w !! 0%nat = Some (0%nat, TLooping 0 100) /\
  all_stopped (stop_all joins w) /\
  (exists ts', threads (stop_all joins w) !! 0%nat = Some (0%nat, ts')) /\
  caller_effects (wtrace (stop_all joins w)) =
    caller_effects (wtrace w) ++
    [ELog INFO MsgStoppingAll;
     EJoin 0 2; ELog INFO (MsgForwarderStopped 1);
     ELog INFO (MsgForwarderStopped 2);
     ELog INFO (MsgForwarderStopped 3);
     ELog INFO MsgAllStopped].
Proof.
  cbv zeta.
  assert (H1 : threads (run two_frames (manager_init main_config)) !! 0%nat
               = Some (0%nat, TLooping 0 100)) by (vm_compute; reflexivity).
  destruct (stop_all_stops_each_in_order
              (fun i : nat =>
                 if (i =? 1)%nat then [(0%nat, env_frame (heartbeat 1) 105)]
                 else [])
              (run two_frames (manager_init main_config)))
    as (A & _ & _ & C & D).
  split; [exact H1 |]. split; [exact A |]. split; [exact (C _ _ _ H1) |].
  rewrite D. vm_compute. reflexivity.
Defined.

Lemma nothing_relayed_after_stop_all_witness :
  let w := run two_frames (manager_init main_config) in
  let joins := fun _ : nat => [(0%nat, env_frame (heartbeat 1) 104)] in
  let sched := [(0%nat, env_frame (heartbeat 1) 105)] in
  threads w !! 0%nat = Some (0%nat, TLooping 0 100) /\
  is_Some (forwarders w !! 0%nat) /\
  In 0%nat (map fst sched) /\
  threads (run_threads sched (stop_all joins w)) !! 0%nat
    = Some (0%nat, TExited) /\
  sent (wtrace (run_threads sched (stop_all joins w)))
    = sent (wtrace (stop_all joins w)).
Proof.
  cbv zeta.
  assert (H1 : threads (run two_frames (manager_init main_config)) !! 0%nat
               = Some (0%nat, TLooping 0 100)) by (vm_compute; reflexivity).
  assert (H2 : is_Some (forwarders (run two_frames (manager_init main_config))
                        !! 0%nat))
    by (exists drone1_after_two_frames; vm_compute; reflexivity).
  assert (H3 : In 0%nat (map fst [(0%nat, env_frame (heartbeat 1) 105)]))
    by (left; reflexivity).
  destruct (nothing_relayed_after_stop_all
              (fun _ : nat => [(0%nat, env_frame (heartbeat 1) 104)])
              (run two_frames (manager_init main_config))
              [(0%nat, env_frame (heartbeat 1) 105)]) as (_ & _ & S & X).
  split; [exact H1 |]. split; [exact H2 |]. split; [exact H3 |].
  split; [exact (X 0%nat 0%nat 0 100%Q H1 H2 H3) | exact S].
Defined.

Lemma stop_all_joins_every_started_thread_witness :
  let w1 := run_threads [] (start_all calm_schedule (manager_init main_config)) in
  let joins := fun _ : nat => [(2%nat, env_frame (heartbeat 3) 104)] in
  main_config !! 1%nat = Some (mkConfig 2 14541 14551 2) /\
  (exists f',
     forwarders (stop_all joins w1) !! 1%nat = Some f' /\
     running f' = false /\ thread f' = Some 1%nat) /\
  caller_effects (wtrace (stop_all joins w1)) =
    caller_effects (wtrace w1) ++
    [ELog INFO MsgStoppingAll;
     EJoin 0 2; ELog INFO (MsgForwarderStopped 1);
     EJoin 1 2; ELog INFO (MsgForwarderStopped 2);
     EJoin 2 2; ELog INFO (MsgForwarderStopped 3);
     ELog INFO MsgAllStopped].
Proof.
  cbv zeta.
  destruct (stop_all_joins_every_started_thread main_config calm_schedule []
              (fun _ : nat => [(2%nat, env_frame (heartbeat 3) 104)]))
    as (A & _ & C).
  split; [reflexivity |]. split.
  - destruct (C 1%nat _ eq_refl) as (f & f' & _ & F1 & F2 & F3 & _).
    exists f'. split; [exact F1 |]. split; [exact F2 | exact F3].
  - exact A.
Defined.
